(** * Product catalogue: ordering field, uniqueness validators, read API

    A shallow embedding of [product/fields.py], [product/models.py],
    [product/serializers.py] and [product/views.py].

    - The write side is relational: every table is a finite map from the
      primary key to the stored columns, and [save] runs in a small
      state-and-exception monad over the whole store.
    - The read side works on model instances as the ORM hands them to the
      serializers: records whose related managers are already lists.
    - Python dictionaries are finite maps; Python values that reach a
      response are the inductive [pyval]. *)

From stdpp Require Import gmap strings pretty list fin_maps.

Local Open Scope Z_scope.

(** ** Exceptions and the store monad *)

Inductive Exc :=
| ValidationError (msg : string)
| IntegrityError
| ObjectDoesNotExist
| KeyError
| TypeError.

Definition M (S A : Type) : Type := S → (Exc + A) * S.

Definition raise {S A} (e : Exc) : M S A := λ s, (inl e, s).
Definition get_store {S} : M S S := λ s, (inr s, s).
Definition put_store {S} (s : S) : M S unit := λ _, (inr tt, s).

#[global] Instance M_ret {S} : MRet (M S) := λ A a s, (inr a, s).
#[global] Instance M_bind {S} : MBind (M S) := λ A B k c s,
  match c s with
  | (inl e, s') => (inl e, s')
  | (inr a, s') => k a s'
  end.

(** ** Tables (models.py)

    A table maps the primary key [id] to the stored columns.  Columns that
    no validator and no serializer of the repository reads ([weight],
    [created_at] of a line, [description] of an attribute) are left out.
    The store holds the tables whose rows a save of the catalogue reads or
    writes; the value range of an integer column is the database backend's
    and is not part of the model. *)

(** [ProductType]: only the existence of a row matters to a save. *)
Record ProductTypeRow := {
  pt_name : string;
}.

(** [Product] columns. *)
Record ProductRow := {
  p_name : string;
  p_slug : string;
  p_pid : string;
  p_is_active : bool;
  p_product_type : Z;
}.

(** [AttributeValue]: [attribute_value] text and the [attribute] foreign key. *)
Record AttributeValueRow := {
  av_attribute_value : string;
  av_attribute : Z;
}.

(** [ProductLine] columns; [order] is a [PositiveIntegerField], NOT NULL. *)
Record ProductLineRow := {
  pl_price : Z;
  pl_sku : string;
  pl_stock_qty : Z;
  pl_is_active : bool;
  pl_order : N;
  pl_product : Z;
  pl_product_type : Z;
}.

(** [ProductImage] columns. *)
Record ProductImageRow := {
  pi_alternative_text : string;
  pi_url : string;
  pi_order : N;
  pi_product_line : Z;
}.

(** The two join tables, each with [unique_together] on its pair. *)
Record ProductAttributeValueRow := {
  pav_attribute_value : Z;
  pav_product : Z;
}.

Record ProductLineAttributeValueRow := {
  plav_attribute_value : Z;
  plav_product_line : Z;
}.

Record DB := {
  product_types : gmap Z ProductTypeRow;
  products : gmap Z ProductRow;
  attribute_values : gmap Z AttributeValueRow;
  product_lines : gmap Z ProductLineRow;
  product_images : gmap Z ProductImageRow;
  product_attribute_values : gmap Z ProductAttributeValueRow;
  product_line_attribute_values : gmap Z ProductLineAttributeValueRow;
}.

Definition set_product_lines (t : gmap Z ProductLineRow) (db : DB) : DB :=
  {| product_types := product_types db;
     products := products db;
     attribute_values := attribute_values db;
     product_lines := t;
     product_images := product_images db;
     product_attribute_values := product_attribute_values db;
     product_line_attribute_values := product_line_attribute_values db |}.

Definition set_product_images (t : gmap Z ProductImageRow) (db : DB) : DB :=
  {| product_types := product_types db;
     products := products db;
     attribute_values := attribute_values db;
     product_lines := product_lines db;
     product_images := t;
     product_attribute_values := product_attribute_values db;
     product_line_attribute_values := product_line_attribute_values db |}.

Definition set_product_attribute_values
    (t : gmap Z ProductAttributeValueRow) (db : DB) : DB :=
  {| product_types := product_types db;
     products := products db;
     attribute_values := attribute_values db;
     product_lines := product_lines db;
     product_images := product_images db;
     product_attribute_values := t;
     product_line_attribute_values := product_line_attribute_values db |}.

Definition set_product_line_attribute_values
    (t : gmap Z ProductLineAttributeValueRow) (db : DB) : DB :=
  {| product_types := product_types db;
     products := products db;
     attribute_values := attribute_values db;
     product_lines := product_lines db;
     product_images := product_images db;
     product_attribute_values := product_attribute_values db;
     product_line_attribute_values := t |}.

(** ** Model instances

    An instance carries [id = None] until it has been inserted, and its
    [order] attribute is [None] while the caller has not supplied one
    ([blank=True]).  An instance with [id = Some i] is one that was loaded
    from row [i]. *)

Record ProductLine := {
  line_id : option Z;
  line_price : Z;
  line_sku : string;
  line_stock_qty : Z;
  line_is_active : bool;
  line_order : option N;
  line_product : Z;
  line_product_type : Z;
}.

Record ProductImage := {
  image_id : option Z;
  image_alternative_text : string;
  image_url : string;
  image_order : option N;
  image_product_line : Z;
}.

Record ProductAttributeValue := {
  pjoin_id : option Z;
  pjoin_attribute_value : Z;
  pjoin_product : Z;
}.

Record ProductLineAttributeValue := {
  join_id : option Z;
  join_attribute_value : Z;
  join_product_line : Z;
}.

(** ** The generic part of the ORM

    [objects.filter(field=value)] keeps the rows whose column equals the
    value; iterating a queryset yields [(id, columns)] pairs. *)

Section orm.
Context {Row : Type}.

Definition objects_filter (field : Row → Z) (value : Z) (t : gmap Z Row)
    : list (Z * Row) :=
  map_to_list (filter (λ kr, field kr.2 = value) t).

(** [Model.save_base]: an instance with an id updates (or re-creates) that
    row, an instance without one is inserted under an unused id. *)
Definition save_table (id : option Z) (r : Row) (t : gmap Z Row) : gmap Z Row :=
  match id with
  | Some i => <[i := r]> t
  | None => <[fresh (dom t) := r]> t
  end.

(** The [unique_together] check on a pair of foreign keys: some stored row
    other than the instance's own carries the same pair.  A new instance
    ([id = None]) excludes nothing. *)
Definition unique_together_conflict (f g : Row → Z) (id : option Z)
    (x y : Z) (t : gmap Z Row) : bool :=
  existsb (λ kr, bool_decide (id ≠ Some kr.1)
                 && bool_decide (f kr.2 = x) && bool_decide (g kr.2 = y))
          (map_to_list t).
End orm.

(** ** fields.py: [OrderField]

    The field is declared with [unique_for_field], the name of the parent
    column, and lives under the attribute name [order]. *)

Section OrderField.
Context {Row : Type} (unique_for_field : Row → Z) (attname : Row → N).

(** [query_set.latest(attname)]: a row with the greatest value of the
    column, [None] standing for [ObjectDoesNotExist] on an empty queryset. *)
Fixpoint latest (query_set : list (Z * Row)) : option (Z * Row) :=
  match query_set with
  | [] => None
  | obj :: rest =>
      match latest rest with
      | None => Some obj
      | Some best =>
          if (attname best.2 <? attname obj.2)%N then Some obj else Some best
      end
  end.

(** [OrderField.pre_save]: the value written to the column.  The first
    two arguments are [getattr(model_instance, attname)] and
    [getattr(model_instance, unique_for_field)]. *)
Definition pre_save (instance_order : option N) (instance_parent : Z)
    (objects : gmap Z Row) : N :=
  match instance_order with
  | None =>
      let query_set := objects_filter unique_for_field instance_parent objects in
      match latest query_set with
      | Some last_item => (attname last_item.2 + 1)%N
      | None => 1%N
      end
  | Some value => value
  end.

(** The loop shared by [ProductLine.clean] and [ProductImage.clean]:
    [for obj in query_set: if self.id != obj.id and self.order == obj.order]. *)
Fixpoint clean_loop (self_id : option Z) (self_order : option N)
    (query_set : list (Z * Row)) : Exc + unit :=
  match query_set with
  | [] => inr tt
  | obj :: rest =>
      if bool_decide (self_id ≠ Some obj.1)
         && bool_decide (self_order = Some (attname obj.2))
      then inl (ValidationError "Duplicate value.")
      else clean_loop self_id self_order rest
  end.
End OrderField.

(** ** Field validation ([Model.clean_fields] and [Model.full_clean])

    What the field declarations of models.py make [clean_fields] check; each
    function gives the messages the field contributes. *)

(** [CharField(max_length=n)], [blank] not allowed: an empty text is
    refused before the validators run, a longer one by the length validator. *)
Definition CharField_errors (max_length : nat) (value : string) : list string :=
  if bool_decide (value = "") then ["This field cannot be blank."]
  else if bool_decide (max_length < String.length value)%nat
       then ["Ensure this value has at most " +:+ pretty max_length
             +:+ " characters (it has " +:+ pretty (String.length value) +:+ ")."]
       else [].

(** [DecimalField(decimal_places=2, max_digits=n)] on a value with two
    places: it has more than [n] digits exactly when it reaches [10 ^ n]
    hundredths. *)
Definition DecimalField_errors (max_digits : nat) (hundredths : Z) : list string :=
  if bool_decide (10 ^ Z.of_nat max_digits ≤ Z.abs hundredths)
  then ["Ensure that there are no more than " +:+ pretty max_digits
        +:+ " digits in total."]
  else [].

(** [ForeignKey.validate]: the row named by the key has to exist. *)
Definition ForeignKey_errors {Row} (model : string) (objects : gmap Z Row)
    (id : Z) : list string :=
  match objects !! id with
  | Some _ => []
  | None => [model +:+ " instance with id " +:+ pretty id +:+ " does not exist."]
  end.

(** [full_clean] collects the validation failures of [clean_fields] and of
    [clean] and raises them together (here: their messages, joined); any
    other exception [clean] raises leaves [full_clean] as it is. *)
Definition Model_full_clean (field_errors : list string) (clean : Exc + unit)
    : Exc + unit :=
  match clean with
  | inl (ValidationError msg) =>
      inl (ValidationError (String.concat "; " (field_errors ++ [msg])))
  | inl e => inl e
  | inr _ =>
      match field_errors with
      | [] => inr tt
      | _ :: _ => inl (ValidationError (String.concat "; " field_errors))
      end
  end.

(** ** models.py: [ProductLine] *)

(** [price = DecimalField(decimal_places=2, max_digits=5)],
    [sku = CharField(max_length=100)], and the two foreign keys. *)
Definition ProductLine_clean_fields (self : ProductLine) (db : DB) : list string :=
  DecimalField_errors 5 (line_price self)
  ++ CharField_errors 100 (line_sku self)
  ++ ForeignKey_errors "product" (products db) (line_product self)
  ++ ForeignKey_errors "product type" (product_types db) (line_product_type self).

(** [ProductLine.clean]; [self.product] fetches the related row, [None]
    standing for its [DoesNotExist]. *)
Definition ProductLine_clean (self : ProductLine) : M DB unit := λ db,
  match products db !! line_product self with
  | None => (inl ObjectDoesNotExist, db)
  | Some _ =>
      let query_set :=
        objects_filter pl_product (line_product self) (product_lines db) in
      (clean_loop pl_order (line_id self) (line_order self) query_set, db)
  end.

(** [full_clean]: the field validators and [clean]; the model has no unique
    column besides its key. *)
Definition ProductLine_full_clean (self : ProductLine) : M DB unit := λ db,
  (Model_full_clean (ProductLine_clean_fields self db) (ProductLine_clean self db).1,
   db).

Definition ProductLine_row (self : ProductLine) (order : N) : ProductLineRow :=
  {| pl_price := line_price self;
     pl_sku := line_sku self;
     pl_stock_qty := line_stock_qty self;
     pl_is_active := line_is_active self;
     pl_order := order;
     pl_product := line_product self;
     pl_product_type := line_product_type self |}.

(** [super().save()]: every column is taken from the instance, [order]
    through [OrderField.pre_save], and the row is written.  (An order past
    the range of the backend's column makes the real insert fail; that range
    is not modelled.) *)
Definition ProductLine_super_save (self : ProductLine) : M DB unit :=
  db ← get_store;
  let order := pre_save pl_product pl_order (line_order self) (line_product self)
                        (product_lines db) in
  put_store (set_product_lines
               (save_table (line_id self) (ProductLine_row self order) (product_lines db))
               db).

Definition ProductLine_save (self : ProductLine) : M DB unit :=
  ProductLine_full_clean self;;
  ProductLine_super_save self.

(** ** models.py: [ProductImage] *)

(** [alternative_text = CharField(max_length=100)], [url] an image field
    that may not be blank, and the foreign key. *)
Definition ProductImage_clean_fields (self : ProductImage) (db : DB) : list string :=
  CharField_errors 100 (image_alternative_text self)
  ++ (if bool_decide (image_url self = "") then ["This field cannot be blank."]
      else [])
  ++ ForeignKey_errors "product line" (product_lines db) (image_product_line self).

(** [ProductImage.clean]; [self.product_line] fetches the related row. *)
Definition ProductImage_clean (self : ProductImage) : M DB unit := λ db,
  match product_lines db !! image_product_line self with
  | None => (inl ObjectDoesNotExist, db)
  | Some _ =>
      let query_set :=
        objects_filter pi_product_line (image_product_line self)
                       (product_images db) in
      (clean_loop pi_order (image_id self) (image_order self) query_set, db)
  end.

Definition ProductImage_full_clean (self : ProductImage) : M DB unit := λ db,
  (Model_full_clean (ProductImage_clean_fields self db)
                    (ProductImage_clean self db).1,
   db).

Definition ProductImage_row (self : ProductImage) (order : N) : ProductImageRow :=
  {| pi_alternative_text := image_alternative_text self;
     pi_url := image_url self;
     pi_order := order;
     pi_product_line := image_product_line self |}.

Definition ProductImage_super_save (self : ProductImage) : M DB unit :=
  db ← get_store;
  let order := pre_save pi_product_line pi_order (image_order self)
                        (image_product_line self) (product_images db) in
  put_store (set_product_images
               (save_table (image_id self) (ProductImage_row self order) (product_images db))
               db).

Definition ProductImage_save (self : ProductImage) : M DB unit :=
  ProductImage_full_clean self;;
  ProductImage_super_save self.

(** ** models.py: the join tables *)

Definition ProductLineAttributeValue_row (self : ProductLineAttributeValue)
    : ProductLineAttributeValueRow :=
  {| plav_attribute_value := join_attribute_value self;
     plav_product_line := join_product_line self |}.

(** [queryset.exists()]. *)
Definition exists_ {A} (query_set : list A) : bool :=
  match query_set with [] => false | _ :: _ => true end.

(** [Attribute.objects.filter(attribute_value__product_line_attribute_value=
    product_line).values_list('pk', flat=True)]: one attribute key per join
    row of the line, through the joined value.  Referential integrity is the
    database's: the attribute a stored value names is a stored attribute. *)
Definition attribute_pks_of_line (product_line : Z) (db : DB) : list Z :=
  omap (λ kr, av_attribute <$> attribute_values db !! plav_attribute_value kr.2)
       (objects_filter plav_product_line product_line
                       (product_line_attribute_values db)).

(** [ProductLineAttributeValue.clean].  The related value is fetched where
    its attribute is read, [None] standing for the related object's
    [DoesNotExist]; the product line of a join is taken to exist. *)
Definition ProductLineAttributeValue_clean (self : ProductLineAttributeValue)
    : M DB unit := λ db,
  let query_set :=
    exists_ (filter (λ kr, plav_product_line kr.2 = join_product_line self)
                    (objects_filter plav_attribute_value (join_attribute_value self)
                                    (product_line_attribute_values db))) in
  if negb query_set then
    let iqs := attribute_pks_of_line (join_product_line self) db in
    match attribute_values db !! join_attribute_value self with
    | None => (inl ObjectDoesNotExist, db)
    | Some attribute_value =>
        if bool_decide (av_attribute attribute_value ∈ iqs)
        then (inl (ValidationError "Duplicate attribute exists"), db)
        else (inr tt, db)
    end
  else (inr tt, db).

(** [validate_unique] for [Meta.unique_together = ('attribute_value',
    'product_line')]. *)
Definition ProductLineAttributeValue_validate_unique
    (self : ProductLineAttributeValue) : M DB unit := λ db,
  if unique_together_conflict plav_attribute_value plav_product_line (join_id self)
       (join_attribute_value self) (join_product_line self)
       (product_line_attribute_values db)
  then (inl (ValidationError
          "Product line attribute value with this Attribute value and Product line already exists."),
        db)
  else (inr tt, db).

(** [full_clean]: both checks raise the same exception class, and at most
    one of them can fire for a given store, so they run in sequence. *)
Definition ProductLineAttributeValue_full_clean (self : ProductLineAttributeValue)
    : M DB unit :=
  ProductLineAttributeValue_clean self;;
  ProductLineAttributeValue_validate_unique self.

(** [super().save()] against a table with a unique constraint on the pair. *)
Definition ProductLineAttributeValue_super_save (self : ProductLineAttributeValue)
    : M DB unit :=
  db ← get_store;
  if unique_together_conflict plav_attribute_value plav_product_line (join_id self)
       (join_attribute_value self) (join_product_line self)
       (product_line_attribute_values db)
  then raise IntegrityError
  else put_store (set_product_line_attribute_values
                    (save_table (join_id self) (ProductLineAttributeValue_row self)
                                (product_line_attribute_values db))
                    db).

Definition ProductLineAttributeValue_save (self : ProductLineAttributeValue)
    : M DB unit :=
  ProductLineAttributeValue_full_clean self;;
  ProductLineAttributeValue_super_save self.

Definition ProductAttributeValue_row (self : ProductAttributeValue)
    : ProductAttributeValueRow :=
  {| pav_attribute_value := pjoin_attribute_value self;
     pav_product := pjoin_product self |}.

(** [ProductAttributeValue] overrides neither [clean] nor [save]: the only
    guards are the database's, [Meta.unique_together = ('attribute_value',
    'product')] and the two foreign keys. *)
Definition ProductAttributeValue_save (self : ProductAttributeValue) : M DB unit :=
  db ← get_store;
  if unique_together_conflict pav_attribute_value pav_product (pjoin_id self)
       (pjoin_attribute_value self) (pjoin_product self)
       (product_attribute_values db)
  then raise IntegrityError
  else if bool_decide (attribute_values db !! pjoin_attribute_value self = None
                       ∨ products db !! pjoin_product self = None)
  then raise IntegrityError
  else put_store (set_product_attribute_values
                    (save_table (pjoin_id self) (ProductAttributeValue_row self)
                                (product_attribute_values db))
                    db).

(** A run of saves, stopping at the first that raises. *)
Fixpoint save_all {A} (save : A → M DB unit) (instances : list A) : M DB unit :=
  match instances with
  | [] => mret tt
  | self :: rest => save self;; save_all save rest
  end.

(** The write paths of the catalogue, as one operation type. *)
Inductive Write :=
| SaveProductLine (self : ProductLine)
| SaveProductImage (self : ProductImage)
| SaveProductLineAttributeValue (self : ProductLineAttributeValue)
| SaveProductAttributeValue (self : ProductAttributeValue).

Definition write (w : Write) : M DB unit :=
  match w with
  | SaveProductLine self => ProductLine_save self
  | SaveProductImage self => ProductImage_save self
  | SaveProductLineAttributeValue self => ProductLineAttributeValue_save self
  | SaveProductAttributeValue self => ProductAttributeValue_save self
  end.

(** ** Python values on the read side *)

Inductive pykey := KInt (z : Z) | KStr (s : string).

#[global] Instance pykey_eq_dec : EqDecision pykey.
Proof. solve_decision. Defined.

#[global] Instance pykey_countable : Countable pykey.
Proof.
  refine (inj_countable' (λ k, match k with KInt z => inl z | KStr s => inr s end)
                         (λ x, match x with inl z => KInt z | inr s => KStr s end) _).
  by intros [].
Defined.

(** [PDecimal] is a [Decimal] with two places, given in hundredths, and
    [PDateTime] a timestamp: leaves that the framework renders. *)
#[warnings="-register-all"]
Inductive pyval :=
| PNone
| PInt (z : Z)
| PStr (s : string)
| PDecimal (hundredths : Z)
| PDateTime (t : Z)
| PList (l : list pyval)
| PDict (d : gmap pykey pyval).

Abbreviation dict := (gmap pykey pyval).

#[global] Instance result_ret : MRet (sum Exc) := λ A a, inr a.
#[global] Instance result_bind : MBind (sum Exc) := λ A B k c,
  match c with
  | inl e => inl e
  | inr a => k a
  end.

(** [d.pop(key)], [v[key]], a value used as a dictionary key, and a value
    iterated by [for]. *)
Definition dict_pop (key : pykey) (d : dict) : Exc + (pyval * dict) :=
  match d !! key with
  | Some v => inr (v, delete key d)
  | None => inl KeyError
  end.

Definition getitem (key : pykey) (v : pyval) : Exc + pyval :=
  match v with
  | PDict d => match d !! key with Some x => inr x | None => inl KeyError end
  | _ => inl TypeError
  end.

Definition as_key (v : pyval) : Exc + pykey :=
  match v with
  | PInt z => inr (KInt z)
  | PStr s => inr (KStr s)
  | _ => inl TypeError
  end.

Definition iter (v : pyval) : Exc + list pyval :=
  match v with
  | PList l => inr l
  | _ => inl TypeError
  end.

(** ** Instances on the read side

    What a serializer receives: the instance with its related managers
    already evaluated, in the order the queries returned the rows. *)

Record Category := {
  category_name : string;
  category_slug : string;
  category_is_active : bool;
}.

Record Attribute := {
  attribute_id : Z;
  attribute_name : string;
}.

Record AttributeValue := {
  value_id : Z;
  value_attribute : Attribute;
  value_attribute_value : string;
}.

Record ProductImageView := {
  iv_alternative_text : string;
  iv_url : string;
  iv_order : N;
}.

Record ProductLineView := {
  lv_price : Z;
  lv_sku : string;
  lv_stock_qty : Z;
  lv_order : N;
  lv_product_image : list ProductImageView;
  lv_attribute_value : list AttributeValue;
}.

Record Product := {
  product_name : string;
  product_slug : string;
  product_pid : string;
  product_description : string;
  product_is_active : bool;
  product_category : Category;
  product_created_at : Z;
  product_product_line : list ProductLineView;
  product_attribute_value : list AttributeValue;
}.

(** ** serializers.py *)

(** [fields = ['category', 'slug']], [category = CharField(source='name')]. *)
Definition CategorySerializer_to_representation (instance : Category) : dict :=
  <[KStr "category" := PStr (category_name instance)]>
    (<[KStr "slug" := PStr (category_slug instance)]> ∅).

(** [exclude = ('id', 'product_line')]. *)
Definition ProductImageSerializer_to_representation (instance : ProductImageView)
    : dict :=
  <[KStr "alternative_text" := PStr (iv_alternative_text instance)]>
    (<[KStr "url" := PStr (iv_url instance)]>
       (<[KStr "order" := PInt (Z.of_N (iv_order instance))]> ∅)).

Definition AttributeSerializer_to_representation (instance : Attribute) : dict :=
  <[KStr "id" := PInt (attribute_id instance)]>
    (<[KStr "name" := PStr (attribute_name instance)]> ∅).

Definition AttributeValueSerializer_to_representation (instance : AttributeValue)
    : dict :=
  <[KStr "id" := PInt (value_id instance)]>
    (<[KStr "attribute" :=
         PDict (AttributeSerializer_to_representation (value_attribute instance))]>
       (<[KStr "attribute_value" := PStr (value_attribute_value instance)]> ∅)).

(** The loop of both [to_representation] overrides,
    [attr_values.update({key['attribute'][field]: key['attribute_value']})],
    with [field] being ['id'] for a line and ['name'] for a product. *)
Fixpoint flatten_loop (field : pykey) (attr_values : dict) (av_data : list pyval)
    : Exc + dict :=
  match av_data with
  | [] => inr attr_values
  | key :: rest =>
      a ← getitem (KStr "attribute") key;
      k ← getitem field a ≫= as_key;
      v ← getitem (KStr "attribute_value") key;
      flatten_loop field (<[k := v]> attr_values) rest
  end.

(** [ModelSerializer.to_representation] for [fields = ('price', 'sku',
    'stock_qty', 'order', 'product_image', 'attribute_value')]. *)
Definition ProductLineSerializer_super (instance : ProductLineView) : dict :=
  <[KStr "price" := PDecimal (lv_price instance)]>
    (<[KStr "sku" := PStr (lv_sku instance)]>
       (<[KStr "stock_qty" := PInt (lv_stock_qty instance)]>
          (<[KStr "order" := PInt (Z.of_N (lv_order instance))]>
             (<[KStr "product_image" :=
                  PList (PDict ∘ ProductImageSerializer_to_representation
                           <$> lv_product_image instance)]>
                (<[KStr "attribute_value" :=
                     PList (PDict ∘ AttributeValueSerializer_to_representation
                              <$> lv_attribute_value instance)]> ∅))))).

Definition ProductLineSerializer_to_representation (instance : ProductLineView)
    : Exc + dict :=
  let data := ProductLineSerializer_super instance in
  popped ← dict_pop (KStr "attribute_value") data;
  av_data ← iter popped.1;
  attr_values ← flatten_loop (KStr "id") ∅ av_data;
  mret (<[KStr "specification" := PDict attr_values]> popped.2).

(** [fields = ('name', 'slug', 'pid', 'description', 'product_line',
    'attribute_value')], the lines through [ProductLineSerializer]. *)
Definition ProductSerializer_super (instance : Product) : Exc + dict :=
  product_line ← mapM ProductLineSerializer_to_representation
                      (product_product_line instance);
  mret (<[KStr "name" := PStr (product_name instance)]>
          (<[KStr "slug" := PStr (product_slug instance)]>
             (<[KStr "pid" := PStr (product_pid instance)]>
                (<[KStr "description" := PStr (product_description instance)]>
                   (<[KStr "product_line" := PList (PDict <$> product_line)]>
                      (<[KStr "attribute_value" :=
                           PList (PDict ∘ AttributeValueSerializer_to_representation
                                    <$> product_attribute_value instance)]> ∅)))))).

Definition ProductSerializer_to_representation (instance : Product) : Exc + dict :=
  data ← ProductSerializer_super instance;
  popped ← dict_pop (KStr "attribute_value") data;
  av_data ← iter popped.1;
  attr_values ← flatten_loop (KStr "name") ∅ av_data;
  mret (<[KStr "attribute" := PDict attr_values]> popped.2).

(** [fields = ('price', 'product_image')]. *)
Definition ProductLineCategorySerializer_to_representation
    (instance : ProductLineView) : dict :=
  <[KStr "price" := PDecimal (lv_price instance)]>
    (<[KStr "product_image" :=
         PList (PDict ∘ ProductImageSerializer_to_representation
                  <$> lv_product_image instance)]> ∅).

(** [fields = ('name', 'slug', 'pid', 'created_at', 'product_line')]. *)
Definition ProductCategorySerializer_super (instance : Product) : dict :=
  <[KStr "name" := PStr (product_name instance)]>
    (<[KStr "slug" := PStr (product_slug instance)]>
       (<[KStr "pid" := PStr (product_pid instance)]>
          (<[KStr "created_at" := PDateTime (product_created_at instance)]>
             (<[KStr "product_line" :=
                  PList (PDict ∘ ProductLineCategorySerializer_to_representation
                           <$> product_product_line instance)]> ∅)))).

Definition ProductCategorySerializer_to_representation (instance : Product)
    : Exc + dict :=
  let data := ProductCategorySerializer_super instance in
  popped ← dict_pop (KStr "product_line") data;
  product_line ← iter popped.1;
  match product_line with
  | item :: _ =>
      price ← getitem (KStr "price") item;
      image ← getitem (KStr "product_image") item;
      mret (<[KStr "image" := image]> (<[KStr "price" := price]> popped.2))
  | [] => mret popped.2
  end.

(** ** views.py

    A [QuerySet] is a lazy query with a result cache: the first iteration
    runs the query against the table and keeps the rows, later iterations
    of the same object return the kept rows.  [filter] returns a new
    queryset with an empty cache. *)

Record QuerySet (A : Type) := {
  qs_query : A → bool;
  qs_result_cache : option (list A);
}.
Arguments qs_query {A} _ _.
Arguments qs_result_cache {A} _.

Definition objects_all {A} : QuerySet A :=
  {| qs_query := λ _, true; qs_result_cache := None |}.

Definition qs_filter {A} (p : A → bool) (qs : QuerySet A) : QuerySet A :=
  {| qs_query := λ a, qs_query qs a && p a; qs_result_cache := None |}.

(** [IsActiveQueryset.is_active]: [self.filter(is_active=True)]. *)
Definition is_active {A} (flag : A → bool) (self : QuerySet A) : QuerySet A :=
  qs_filter flag self.

(** Iterating a queryset against the rows of its table. *)
Definition qs_iter {A} (table : list A) (qs : QuerySet A) : list A * QuerySet A :=
  match qs_result_cache qs with
  | Some rows => (rows, qs)
  | None =>
      let rows := List.filter (qs_query qs) table in
      (rows, {| qs_query := qs_query qs; qs_result_cache := Some rows |})
  end.

(** The class attribute [CategoryViewSet.queryset], created at import. *)
Definition CategoryViewSet_queryset : QuerySet Category :=
  is_active category_is_active objects_all.

(** [CategoryViewSet.list]: the serializer iterates [self.queryset] itself.
    The result is the response body and the class attribute afterwards. *)
Definition CategoryViewSet_list (queryset : QuerySet Category)
    (table : list Category) : list dict * QuerySet Category :=
  let '(rows, queryset') := qs_iter table queryset in
  (CategorySerializer_to_representation <$> rows, queryset').

(** The requests of one server process, each against the table as it is
    when the request arrives. *)
Fixpoint CategoryViewSet_serve (queryset : QuerySet Category)
    (tables : list (list Category)) : list (list dict) :=
  match tables with
  | [] => []
  | table :: later =>
      let '(body, queryset') := CategoryViewSet_list queryset table in
      body :: CategoryViewSet_serve queryset' later
  end.

Definition ProductViewSet_queryset : QuerySet Product :=
  is_active product_is_active objects_all.

(** [ProductViewSet.retrieve]: [self.queryset.filter(slug=slug)], the
    prefetches being part of the instances. *)
Definition ProductViewSet_retrieve (table : list Product) (slug : string)
    : Exc + list dict :=
  let query_set :=
    qs_filter (λ p, bool_decide (product_slug p = slug)) ProductViewSet_queryset in
  mapM ProductSerializer_to_representation (qs_iter table query_set).1.

(** [ProductViewSet.list_product_by_category_slug]:
    [self.queryset.filter(category__slug=slug)]. *)
Definition ProductViewSet_list_product_by_category_slug (table : list Product)
    (slug : string) : Exc + list dict :=
  let query_set :=
    qs_filter (λ p, bool_decide (category_slug (product_category p) = slug))
              ProductViewSet_queryset in
  mapM ProductCategorySerializer_to_representation (qs_iter table query_set).1.

(** ** A sample catalogue

    Product 1 has two lines (orders 1 and 2), product 2 has one (order 7);
    line 1 has one image; Red and Blue are values of attribute 1 (Color),
    Large is a value of attribute 2 (Size); line 1 is Red. *)

Definition stored_line (product : Z) (order : N) : ProductLineRow :=
  {| pl_price := 1999; pl_sku := "sku"; pl_stock_qty := 5; pl_is_active := true;
     pl_order := order; pl_product := product; pl_product_type := 1 |}.

Definition stored_image (product_line : Z) (order : N) : ProductImageRow :=
  {| pi_alternative_text := "front"; pi_url := "test.jpg";
     pi_order := order; pi_product_line := product_line |}.

Definition empty_db : DB :=
  {| product_types := ∅; products := ∅;
     attribute_values := ∅; product_lines := ∅; product_images := ∅;
     product_attribute_values := ∅; product_line_attribute_values := ∅ |}.

Definition sample_db : DB :=
  {| product_types := <[1 := {| pt_name := "Footwear" |}]> ∅;
     products :=
       <[1 := {| p_name := "Runner"; p_slug := "runner"; p_pid := "p-1";
                 p_is_active := true; p_product_type := 1 |}]>
         (<[2 := {| p_name := "Walker"; p_slug := "walker"; p_pid := "p-2";
                    p_is_active := true; p_product_type := 1 |}]>
            (<[5 := {| p_name := "Hiker"; p_slug := "hiker"; p_pid := "p-5";
                       p_is_active := false; p_product_type := 1 |}]> ∅));
     attribute_values :=
       <[10 := {| av_attribute_value := "Red"; av_attribute := 1 |}]>
         (<[11 := {| av_attribute_value := "Blue"; av_attribute := 1 |}]>
            (<[12 := {| av_attribute_value := "Large"; av_attribute := 2 |}]> ∅));
     product_lines :=
       <[1 := stored_line 1 1]>
         (<[2 := stored_line 1 2]> (<[3 := stored_line 2 7]> ∅));
     product_images := <[1 := stored_image 1 1]> ∅;
     product_attribute_values :=
       <[1 := {| pav_attribute_value := 10; pav_product := 1 |}]> ∅;
     product_line_attribute_values :=
       <[1 := {| plav_attribute_value := 10; plav_product_line := 1 |}]> ∅ |}.

Definition new_line (product : Z) (order : option N) : ProductLine :=
  {| line_id := None; line_price := 1999; line_sku := "sku"; line_stock_qty := 5;
     line_is_active := true; line_order := order; line_product := product;
     line_product_type := 1 |}.

Definition new_image (product_line : Z) (order : option N) : ProductImage :=
  {| image_id := None; image_alternative_text := "front"; image_url := "test.jpg";
     image_order := order; image_product_line := product_line |}.

Definition new_join (attribute_value product_line : Z) : ProductLineAttributeValue :=
  {| join_id := None; join_attribute_value := attribute_value;
     join_product_line := product_line |}.

(** Line 2 loaded from the sample catalogue and saved again unchanged. *)
Definition loaded_line_2 : ProductLine :=
  {| line_id := Some 2; line_price := 1999; line_sku := "sku"; line_stock_qty := 5;
     line_is_active := true; line_order := Some 2%N; line_product := 1;
     line_product_type := 1 |}.


Definition sample_writes : list Write :=
  [SaveProductLine (new_line 1 None);
   SaveProductLine (new_line 2 (Some 3%N));
   SaveProductImage (new_image 1 None);
   SaveProductLine loaded_line_2;
   SaveProductLineAttributeValue (new_join 12 1)].

(** The stored join of line 1 with Red, loaded and saved again. *)
Definition loaded_join_1 : ProductLineAttributeValue :=
  {| join_id := Some 1; join_attribute_value := 10; join_product_line := 1 |}.

(** The sample catalogue after the value Large was moved to the attribute
    Color while line 1 carried both Red and Large. *)
Definition two_colors_db : DB :=
  {| product_types := product_types sample_db;
     products := products sample_db;
     attribute_values :=
       <[10 := {| av_attribute_value := "Red"; av_attribute := 1 |}]>
         (<[12 := {| av_attribute_value := "Large"; av_attribute := 1 |}]> ∅);
     product_lines := <[1 := stored_line 1 1]> ∅;
     product_images := ∅;
     product_attribute_values := ∅;
     product_line_attribute_values :=
       <[1 := {| plav_attribute_value := 10; plav_product_line := 1 |}]>
         (<[2 := {| plav_attribute_value := 12; plav_product_line := 1 |}]> ∅) |}.

Definition new_product_join (attribute_value product : Z) : ProductAttributeValue :=
  {| pjoin_id := None; pjoin_attribute_value := attribute_value;
     pjoin_product := product |}.

(** ** Sample instances on the read side *)

Definition shoes : Category :=
  {| category_name := "Shoes"; category_slug := "shoes"; category_is_active := true |}.

(** The same category after an administrator cleared its active flag. *)
Definition shoes_hidden : Category :=
  {| category_name := "Shoes"; category_slug := "shoes"; category_is_active := false |}.

Definition hats : Category :=
  {| category_name := "Hats"; category_slug := "hats"; category_is_active := true |}.

Definition color : Attribute := {| attribute_id := 1; attribute_name := "Color" |}.
Definition size_ : Attribute := {| attribute_id := 2; attribute_name := "Size" |}.

Definition red : AttributeValue :=
  {| value_id := 10; value_attribute := color; value_attribute_value := "Red" |}.
Definition blue : AttributeValue :=
  {| value_id := 11; value_attribute := color; value_attribute_value := "Blue" |}.
Definition large : AttributeValue :=
  {| value_id := 12; value_attribute := size_; value_attribute_value := "Large" |}.

Definition front : ProductImageView :=
  {| iv_alternative_text := "front"; iv_url := "test.jpg"; iv_order := 1 |}.

Definition first_line : ProductLineView :=
  {| lv_price := 1999; lv_sku := "sku-1"; lv_stock_qty := 5; lv_order := 1;
     lv_product_image := [front]; lv_attribute_value := [red; large] |}.

Definition second_line : ProductLineView :=
  {| lv_price := 2499; lv_sku := "sku-2"; lv_stock_qty := 0; lv_order := 2;
     lv_product_image := []; lv_attribute_value := [blue] |}.

Definition sample_product (slug : string) (active : bool)
    (lines : list ProductLineView) : Product :=
  {| product_name := "Runner"; product_slug := slug; product_pid := "p-1";
     product_description := ""; product_is_active := active;
     product_category := shoes; product_created_at := 0;
     product_product_line := lines; product_attribute_value := [red; blue] |}.


Definition cleared_line_1 : ProductLine :=
  {| line_id := Some 1; line_price := 1999; line_sku := "sku"; line_stock_qty := 5;
     line_is_active := true; line_order := None; line_product := 1;
     line_product_type := 1 |}.

(** * Properties *)

(** ** Specification vocabulary for the ordering field *)

Section order_spec.
Context {Row : Type} (parent : Row → Z) (order : Row → N).

(** No stored row has parent [p]. *)
Definition no_sibling (p : Z) (t : gmap Z Row) : Prop :=
  ∀ i r, t !! i = Some r → parent r ≠ p.

(** [m] is the greatest order among the stored rows with parent [p]. *)
Definition max_sibling_order (p : Z) (t : gmap Z Row) (m : N) : Prop :=
  (∃ i r, t !! i = Some r ∧ parent r = p ∧ order r = m) ∧
  (∀ i r, t !! i = Some r → parent r = p → (order r ≤ m)%N).

(** The value the spec asks for: one more than the greatest sibling
    order, and 1 without siblings. *)
Definition next_order (p : Z) (t : gmap Z Row) (n : N) : Prop :=
  (no_sibling p t ∧ n = 1%N) ∨ (∃ m, max_sibling_order p t m ∧ n = (m + 1)%N).

(** The two tables hold the same rows under parent [p]. *)
Definition same_siblings (p : Z) (t t' : gmap Z Row) : Prop :=
  ∀ i r, parent r = p → (t !! i = Some r ↔ t' !! i = Some r).

(** Sibling rows carry pairwise distinct orders. *)
Definition order_unique (t : gmap Z Row) : Prop :=
  ∀ i j r1 r2, t !! i = Some r1 → t !! j = Some r2 → i ≠ j →
               parent r1 = parent r2 → order r1 ≠ order r2.

(** Some row other than [id] has parent [p] and order [o]. *)
Definition order_taken (id : option Z) (p : Z) (o : N) (t : gmap Z Row) : Prop :=
  ∃ j r, t !! j = Some r ∧ id ≠ Some j ∧ parent r = p ∧ order r = o.
End order_spec.

Definition catalogue_order_unique (db : DB) : Prop :=
  order_unique pl_product pl_order (product_lines db) ∧
  order_unique pi_product_line pi_order (product_images db).

(** ** Specification vocabulary for the join tables *)

(** Some stored row other than [id] carries the pair [(x, y)]. *)
Definition pair_taken {Row} (f g : Row → Z) (id : option Z) (x y : Z)
    (t : gmap Z Row) : Prop :=
  ∃ j r, t !! j = Some r ∧ id ≠ Some j ∧ f r = x ∧ g r = y.

(** The pair of the join is stored, under whatever id. *)
Definition pair_stored (self : ProductLineAttributeValue) (db : DB) : Prop :=
  pair_taken plav_attribute_value plav_product_line None
    (join_attribute_value self) (join_product_line self)
    (product_line_attribute_values db).

(** The line has a value of attribute [a]. *)
Definition line_has_attribute (product_line a : Z) (db : DB) : Prop :=
  ∃ j r v, product_line_attribute_values db !! j = Some r ∧
           plav_product_line r = product_line ∧
           attribute_values db !! plav_attribute_value r = Some v ∧
           av_attribute v = a.

(** The line has a value other than [value] that belongs to the attribute
    of [value]. *)
Definition line_has_other_value_of_same_attribute (product_line value : Z)
    (db : DB) : Prop :=
  ∃ v j r v', attribute_values db !! value = Some v ∧
              product_line_attribute_values db !! j = Some r ∧
              plav_product_line r = product_line ∧
              plav_attribute_value r ≠ value ∧
              attribute_values db !! plav_attribute_value r = Some v' ∧
              av_attribute v' = av_attribute v.

(** ** Specification vocabulary for the serializers *)

(** The text of the last value in the list whose key is [k]. *)
Definition last_value_for (key_of : AttributeValue → pykey)
    (values : list AttributeValue) (k : pykey) : option pyval :=
  PStr ∘ value_attribute_value <$> last (filter (λ av, key_of av = k) values).

Definition by_attribute_id (av : AttributeValue) : pykey :=
  KInt (attribute_id (value_attribute av)).

Definition by_attribute_name (av : AttributeValue) : pykey :=
  KStr (attribute_name (value_attribute av)).

(** The flat map the loop builds, one update per value, in list order. *)
Definition flat_map_of (key_of : AttributeValue → pykey) (acc : dict)
    (values : list AttributeValue) : dict :=
  foldl (λ m av, <[key_of av := PStr (value_attribute_value av)]> m) acc values.

(** The documents the serializers return, written out. *)
Definition ProductLine_document (line : ProductLineView) : dict :=
  <[KStr "specification" :=
      PDict (flat_map_of by_attribute_id ∅ (lv_attribute_value line))]>
    (delete (KStr "attribute_value") (ProductLineSerializer_super line)).

Definition Product_document (product : Product) : dict :=
  <[KStr "attribute" :=
      PDict (flat_map_of by_attribute_name ∅ (product_attribute_value product))]>
    (<[KStr "name" := PStr (product_name product)]>
       (<[KStr "slug" := PStr (product_slug product)]>
          (<[KStr "pid" := PStr (product_pid product)]>
             (<[KStr "description" := PStr (product_description product)]>
                (<[KStr "product_line" :=
                     PList (PDict ∘ ProductLine_document
                              <$> product_product_line product)]> ∅))))).

Definition ProductCategory_document (product : Product) : dict :=
  let data := delete (KStr "product_line") (ProductCategorySerializer_super product) in
  match product_product_line product with
  | first :: _ =>
      <[KStr "image" :=
          PList (PDict ∘ ProductImageSerializer_to_representation
                   <$> lv_product_image first)]>
        (<[KStr "price" := PDecimal (lv_price first)]> data)
  | [] => data
  end.

(** ** fields.py: the system check of [OrderField]

    [checks.Error(msg)] is a record with its message; the field names of the
    model, [[f.name for f in self.model._meta.get_fields()]], and the errors
    of [super().check()] are inputs. *)

Record CheckError := { error_msg : string }.

Definition _check_for_field_attribute (unique_for_field : option string)
    (field_names : list string) : list CheckError :=
  match unique_for_field with
  | None =>
      [ {| error_msg := "OrderField must define a 'unique_for_field' attribute" |} ]
  | Some name =>
      if bool_decide (name ∉ field_names)
      then [ {| error_msg := "OrderField entered does not match an existing model field" |} ]
      else []
  end.

Definition OrderField_check (super_check : list CheckError)
    (unique_for_field : option string) (field_names : list string)
    : list CheckError :=
  super_check ++ _check_for_field_attribute unique_for_field field_names.

(** The fields [ProductLine] and [ProductImage] declare themselves (reverse
    relations add further names to [get_fields()]). *)
Definition ProductLine_declared_fields : list string :=
  ["id"; "price"; "sku"; "stock_qty"; "is_active"; "order"; "weight"; "product";
   "product_type"; "attribute_value"; "created_at"].

Definition ProductImage_declared_fields : list string :=
  ["id"; "alternative_text"; "url"; "order"; "product_line"].

(** ** Specification vocabulary for the join invariants *)

(** No two stored rows carry the same pair. *)
Definition pair_unique {Row} (f g : Row → Z) (t : gmap Z Row) : Prop :=
  ∀ i j r1 r2, t !! i = Some r1 → t !! j = Some r2 → i ≠ j →
               ¬ (f r1 = f r2 ∧ g r1 = g r2).

Definition joins_pair_unique (db : DB) : Prop :=
  pair_unique plav_attribute_value plav_product_line
              (product_line_attribute_values db) ∧
  pair_unique pav_attribute_value pav_product (product_attribute_values db).

(** No line has two joins whose values belong to one attribute. *)
Definition attribute_axis_unique (db : DB) : Prop :=
  ∀ i j r1 r2 v1 v2,
    product_line_attribute_values db !! i = Some r1 →
    product_line_attribute_values db !! j = Some r2 →
    i ≠ j →
    plav_product_line r1 = plav_product_line r2 →
    attribute_values db !! plav_attribute_value r1 = Some v1 →
    attribute_values db !! plav_attribute_value r2 = Some v2 →
    av_attribute v1 ≠ av_attribute v2.

(** ** Facts about the ORM layer *)

Section orm_facts.
Context {Row : Type}.
Implicit Types (t : gmap Z Row) (r : Row).

Lemma elem_of_objects_filter (field : Row → Z) value t i r :
  (i, r) ∈ objects_filter field value t ↔ t !! i = Some r ∧ field r = value.
Proof.
  unfold objects_filter. rewrite elem_of_map_to_list.
  by rewrite map_lookup_filter_Some.
Qed.

Lemma lookup_fresh_id t : t !! fresh (dom t) = None.
Proof. apply not_elem_of_dom, is_fresh. Qed.

Lemma unique_together_conflict_spec (f g : Row → Z) id x y t :
  unique_together_conflict f g id x y t = true ↔ pair_taken f g id x y t.
Proof.
  unfold unique_together_conflict. rewrite existsb_exists. split.
  - intros [[j r] [Hin Hb]]. apply list_elem_of_In, elem_of_map_to_list in Hin.
    rewrite !andb_true_iff, !bool_decide_eq_true in Hb.
    destruct Hb as [[Hid Hf] Hg]. by exists j, r.
  - intros (j & r & Hl & Hid & Hf & Hg). exists (j, r). split.
    + by apply list_elem_of_In, elem_of_map_to_list.
    + rewrite !andb_true_iff, !bool_decide_eq_true. done.
Qed.
End orm_facts.

(** ** Facts about [OrderField] and the sibling loop *)

Section OrderField_facts.
Context {Row : Type} (parent : Row → Z) (order : Row → N).
Implicit Types (t : gmap Z Row) (r : Row) (qs : list (Z * Row)).

Lemma latest_None qs : latest order qs = None ↔ qs = [].
Proof.
  destruct qs as [|obj rest]; simpl; [done|].
  destruct (latest order rest) as [best|]; [|done].
  by destruct (order best.2 <? order obj.2)%N.
Qed.

Lemma latest_Some qs best :
  latest order qs = Some best →
  best ∈ qs ∧ ∀ obj, obj ∈ qs → (order obj.2 ≤ order best.2)%N.
Proof.
  revert best. induction qs as [|obj rest IH]; intros best; simpl; [done|].
  destruct (latest order rest) as [b|] eqn:Hrest.
  - destruct (IH b eq_refl) as [Hb Hmax].
    destruct (order b.2 <? order obj.2)%N eqn:Hlt; intros [= <-].
    + apply N.ltb_lt in Hlt. split; [left|].
      intros o [->|Ho]%elem_of_cons; [lia|]. specialize (Hmax o Ho). lia.
    + apply N.ltb_ge in Hlt. split; [by right|].
      intros o [->|Ho]%elem_of_cons; [lia|]. by apply Hmax.
  - apply latest_None in Hrest as ->. intros [= <-]. split; [left|].
    intros o [->|Ho]%elem_of_cons; [lia|]. by apply elem_of_nil in Ho.
Qed.

(** An unset order is replaced by the next order under the parent. *)
Lemma pre_save_next_order p t :
  next_order parent order p t (pre_save parent order None p t).
Proof.
  unfold pre_save.
  destruct (latest order (objects_filter parent p t)) as [[j m]|] eqn:Hl.
  - right. exists (order m). split; [|done].
    apply latest_Some in Hl as [Hin Hmax].
    apply elem_of_objects_filter in Hin as [Hj Hp]. split.
    + by exists j, m.
    + intros i r Hi Hr. apply (Hmax (i, r)). by apply elem_of_objects_filter.
  - left. split; [|done]. apply latest_None in Hl.
    intros i r Hi Hr.
    assert ((i, r) ∈ objects_filter parent p t) as Hin
      by by apply elem_of_objects_filter.
    rewrite Hl in Hin. by apply elem_of_nil in Hin.
Qed.

(** [next_order] determines its value. *)
Lemma next_order_unique p t n n' :
  next_order parent order p t n → next_order parent order p t n' → n = n'.
Proof.
  intros [[H0 ->]|(m & [(i & r & Hi & Hp & Hm) Hmax] & ->)]
         [[H0' ->]|(m' & [(i' & r' & Hi' & Hp' & Hm') Hmax'] & ->)]; [done|..].
  - by destruct (H0 i' r' Hi').
  - by destruct (H0' i r Hi).
  - specialize (Hmax i' r' Hi' Hp'). specialize (Hmax' i r Hi Hp). lia.
Qed.

Lemma next_order_same_siblings p t t' n :
  same_siblings parent p t t' →
  next_order parent order p t n → next_order parent order p t' n.
Proof.
  intros Hs [[H0 ->]|(m & [(i & r & Hi & Hp & Hm) Hmax] & ->)].
  - left. split; [|done]. intros i r Hi Hp. apply (H0 i r); [|done].
    by apply Hs.
  - right. exists m. split; [|done]. split.
    + exists i, r. split; [by apply Hs|done].
    + intros i' r' Hi' Hp'. apply (Hmax i' r'); [|done]. by apply Hs.
Qed.

(** A supplied order passes through. *)
Lemma pre_save_explicit o p t : pre_save parent order (Some o) p t = o.
Proof. done. Qed.

(** The loop raises exactly when the queryset holds another row with the
    instance's order. *)
Lemma clean_loop_raises id o qs :
  clean_loop order id o qs = inl (ValidationError "Duplicate value.") ↔
  ∃ obj, obj ∈ qs ∧ id ≠ Some obj.1 ∧ o = Some (order obj.2).
Proof.
  induction qs as [|obj rest IH]; simpl.
  - split; [done|]. intros (obj & Hin & _). by apply elem_of_nil in Hin.
  - destruct (bool_decide (id ≠ Some obj.1)
              && bool_decide (o = Some (order obj.2))) eqn:Hb.
    + apply andb_true_iff in Hb as [H1%bool_decide_eq_true H2%bool_decide_eq_true].
      split; [|done]. intros _. exists obj. split; [left|done].
    + rewrite IH. apply andb_false_iff in Hb. split.
      * intros (x & Hin & Hx). exists x. split; [by right|done].
      * intros (x & [->|Hin]%elem_of_cons & Hid & Ho); [|by exists x].
        destruct Hb as [Hb%bool_decide_eq_false|Hb%bool_decide_eq_false]; done.
Qed.


Lemma clean_loop_filter_raises id o p t :
  clean_loop order id o (objects_filter parent p t)
    = inl (ValidationError "Duplicate value.") ↔
  match o with
  | Some v => order_taken parent order id p v t
  | None => False
  end.
Proof.
  rewrite clean_loop_raises. split.
  - intros ([j r] & Hin & Hid & Ho). apply elem_of_objects_filter in Hin as [Hj Hp].
    simpl in *. subst o. by exists j, r.
  - destruct o as [v|]; [|done]. intros (j & r & Hj & Hid & Hp & Ho).
    exists (j, r). split; [by apply elem_of_objects_filter|]. simpl. by subst v.
Qed.

(** Writing a row whose order no other sibling holds keeps sibling orders
    distinct. *)
Lemma save_table_order_unique id r t :
  order_unique parent order t →
  ¬ order_taken parent order id (parent r) (order r) t →
  order_unique parent order (save_table id r t).
Proof.
  intros Hu Hfree.
  assert (∀ k, (id = Some k ∨ (id = None ∧ t !! k = None)) →
               order_unique parent order (<[k := r]> t)) as Hins.
  { intros k Hk i j r1 r2 Hi Hj Hij Hp.
    destruct (decide (i = k)) as [->|Hik], (decide (j = k)) as [->|Hjk];
      [done|..]; simplify_map_eq.
    - intros Heq. apply Hfree. exists j, r2. split_and!; [done| |done|done].
      destruct Hk as [->|[-> Hk]]; congruence.
    - intros Heq. apply Hfree. exists i, r1. split_and!; [done| |done|done].
      destruct Hk as [->|[-> Hk]]; congruence.
    - by apply (Hu i j). }
  destruct id as [k|]; simpl; apply Hins; [by left|right].
  split; [done|apply lookup_fresh_id].
Qed.

(** The next order is held by no sibling. *)
Lemma next_order_free id p t n :
  next_order parent order p t n → ¬ order_taken parent order id p n t.
Proof.
  intros [[H0 ->]|(m & [_ Hmax] & ->)] (j & r & Hj & _ & Hp & Ho).
  - by destruct (H0 j r Hj).
  - specialize (Hmax j r Hj Hp). lia.
Qed.

Lemma pre_save_free id o p t :
  (∀ v, o = Some v → ¬ order_taken parent order id p v t) →
  ¬ order_taken parent order id p (pre_save parent order o p t) t.
Proof.
  destruct o as [v|]; intros Hv.
  - by apply Hv.
  - apply next_order_free, pre_save_next_order.
Qed.
End OrderField_facts.

(** ** [save] of the ordered models, unfolded *)

Lemma Model_full_clean_ok (field_errors : list string) (clean : Exc + unit) :
  Model_full_clean field_errors clean = inr tt ↔
  field_errors = [] ∧ clean = inr tt.
Proof.
  unfold Model_full_clean. split.
  - destruct clean as [[]|[]]; try done. by destruct field_errors.
  - by intros [-> ->].
Qed.


Lemma ProductLine_save_eq (self : ProductLine) (db : DB) :
  ProductLine_save self db =
  match (ProductLine_full_clean self db).1 with
  | inl e => (inl e, db)
  | inr _ =>
      (inr tt,
       set_product_lines
         (save_table (line_id self)
            (ProductLine_row self
               (pre_save pl_product pl_order (line_order self) (line_product self)
                         (product_lines db)))
            (product_lines db)) db)
  end.
Proof.
  unfold ProductLine_save, ProductLine_full_clean, ProductLine_super_save,
    mbind, M_bind, get_store, put_store. simpl.
  by destruct (Model_full_clean _ _).
Qed.

Lemma ProductLine_clean_ok (self : ProductLine) (db : DB) :
  (ProductLine_clean self db).1 = inr tt ↔
  is_Some (products db !! line_product self) ∧
  clean_loop pl_order (line_id self) (line_order self)
    (objects_filter pl_product (line_product self) (product_lines db)) = inr tt.
Proof.
  unfold ProductLine_clean.
  destruct (products db !! line_product self) as [p|]; simpl.
  - split; [by eauto|]. by intros [_ ?].
  - split; [done|]. by intros [[? ?] _].
Qed.

(** What a successful save of a line went through and wrote. *)
Lemma ProductLine_save_ok (self : ProductLine) (db db' : DB) :
  ProductLine_save self db = (inr tt, db') →
  ProductLine_clean_fields self db = [] ∧
  is_Some (products db !! line_product self) ∧
  clean_loop pl_order (line_id self) (line_order self)
    (objects_filter pl_product (line_product self) (product_lines db)) = inr tt ∧
  db' = set_product_lines
          (save_table (line_id self)
             (ProductLine_row self
                (pre_save pl_product pl_order (line_order self) (line_product self)
                          (product_lines db)))
             (product_lines db)) db.
Proof.
  rewrite ProductLine_save_eq.
  destruct ((ProductLine_full_clean self db).1) as [e|[]] eqn:Hfc; [done|].
  intros [= <-]. unfold ProductLine_full_clean in Hfc. simpl in Hfc.
  apply Model_full_clean_ok in Hfc as [Hfields Hclean].
  apply ProductLine_clean_ok in Hclean as [Hp Hloop]. done.
Qed.

Lemma ProductLine_save_fail (self : ProductLine) (db db' : DB) (e : Exc) :
  ProductLine_save self db = (inl e, db') →
  db' = db ∧ ProductLine_full_clean self db = (inl e, db).
Proof.
  rewrite ProductLine_save_eq. unfold ProductLine_full_clean. simpl.
  destruct (Model_full_clean _ _) as [e0|[]]; [|done]. by intros [= <- <-].
Qed.

Lemma ProductImage_save_eq (self : ProductImage) (db : DB) :
  ProductImage_save self db =
  match (ProductImage_full_clean self db).1 with
  | inl e => (inl e, db)
  | inr _ =>
      (inr tt,
       set_product_images
         (save_table (image_id self)
            (ProductImage_row self
               (pre_save pi_product_line pi_order (image_order self)
                         (image_product_line self) (product_images db)))
            (product_images db)) db)
  end.
Proof.
  unfold ProductImage_save, ProductImage_full_clean, ProductImage_super_save,
    mbind, M_bind, get_store, put_store. simpl.
  by destruct (Model_full_clean _ _).
Qed.

Lemma ProductImage_clean_ok (self : ProductImage) (db : DB) :
  (ProductImage_clean self db).1 = inr tt ↔
  is_Some (product_lines db !! image_product_line self) ∧
  clean_loop pi_order (image_id self) (image_order self)
    (objects_filter pi_product_line (image_product_line self) (product_images db))
  = inr tt.
Proof.
  unfold ProductImage_clean.
  destruct (product_lines db !! image_product_line self) as [l|]; simpl.
  - split; [by eauto|]. by intros [_ ?].
  - split; [done|]. by intros [[? ?] _].
Qed.

Lemma ProductImage_save_ok (self : ProductImage) (db db' : DB) :
  ProductImage_save self db = (inr tt, db') →
  ProductImage_clean_fields self db = [] ∧
  is_Some (product_lines db !! image_product_line self) ∧
  clean_loop pi_order (image_id self) (image_order self)
    (objects_filter pi_product_line (image_product_line self) (product_images db))
  = inr tt ∧
  db' = set_product_images
          (save_table (image_id self)
             (ProductImage_row self
                (pre_save pi_product_line pi_order (image_order self)
                          (image_product_line self) (product_images db)))
             (product_images db)) db.
Proof.
  rewrite ProductImage_save_eq.
  destruct ((ProductImage_full_clean self db).1) as [e|[]] eqn:Hfc; [done|].
  intros [= <-]. unfold ProductImage_full_clean in Hfc. simpl in Hfc.
  apply Model_full_clean_ok in Hfc as [Hfields Hclean].
  apply ProductImage_clean_ok in Hclean as [Hp Hloop]. done.
Qed.


(** An instance without an order always passes [clean]. *)
Lemma clean_loop_unset {Row} (order : Row → N) id (qs : list (Z * Row)) :
  clean_loop order id None qs = inr tt.
Proof. induction qs as [|obj rest IH]; simpl; [done|]. by rewrite andb_false_r. Qed.

(** C1: for a new ProductLine (resp. ProductImage) whose order is unset,
    [OrderField.pre_save] returns 1 + the greatest order among the stored
    rows of the same product (resp. product line), and 1 when there is no
    such row; the value is the same in every store that holds the same rows
    under that parent; and the row a successful save inserts carries it. *)
Theorem pre_save_assigns_next_order (db : DB) (line : ProductLine)
    (image : ProductImage) :
  line_id line = None → line_order line = None →
  image_id image = None → image_order image = None →
  (∃ n,
     pre_save pl_product pl_order (line_order line) (line_product line)
              (product_lines db) = n ∧
     next_order pl_product pl_order (line_product line) (product_lines db) n ∧
     (∀ t', same_siblings pl_product (line_product line) (product_lines db) t' →
            pre_save pl_product pl_order None (line_product line) t' = n) ∧
     (∀ db', ProductLine_save line db = (inr tt, db') →
             db' = set_product_lines
                     (<[fresh (dom (product_lines db)) := ProductLine_row line n]>
                        (product_lines db)) db)) ∧
  (∃ n,
     pre_save pi_product_line pi_order (image_order image)
              (image_product_line image) (product_images db) = n ∧
     next_order pi_product_line pi_order (image_product_line image)
                (product_images db) n ∧
     (∀ t', same_siblings pi_product_line (image_product_line image)
                          (product_images db) t' →
            pre_save pi_product_line pi_order None (image_product_line image) t'
            = n) ∧
     (∀ db', ProductImage_save image db = (inr tt, db') →
             db' = set_product_images
                     (<[fresh (dom (product_images db)) := ProductImage_row image n]>
                        (product_images db)) db)).
Proof.
  intros Hid Ho Hid' Ho'. split.
  - exists (pre_save pl_product pl_order None (line_product line) (product_lines db)).
    split_and!.
    + by rewrite Ho.
    + apply pre_save_next_order.
    + intros t' Hs. eapply next_order_unique; [apply pre_save_next_order|].
      eapply next_order_same_siblings; [done|]. apply pre_save_next_order.
    + intros db' Hsave. apply ProductLine_save_ok in Hsave as (_ & _ & _ & ->).
      by rewrite Hid, Ho.
  - exists (pre_save pi_product_line pi_order None (image_product_line image)
                     (product_images db)).
    split_and!.
    + by rewrite Ho'.
    + apply pre_save_next_order.
    + intros t' Hs. eapply next_order_unique; [apply pre_save_next_order|].
      eapply next_order_same_siblings; [done|]. apply pre_save_next_order.
    + intros db' Hsave. apply ProductImage_save_ok in Hsave as (_ & _ & _ & ->).
      by rewrite Hid', Ho'.
Qed.

Lemma pre_save_assigns_next_order_witness :
  ∃ n,
    ProductLine_save (new_line 1 None) sample_db =
      (inr tt,
       set_product_lines
         (<[fresh (dom (product_lines sample_db)) :=
              ProductLine_row (new_line 1 None) n]> (product_lines sample_db))
         sample_db) ∧
    next_order pl_product pl_order 1 (product_lines sample_db) n.
Proof.
  destruct (pre_save_assigns_next_order sample_db (new_line 1 None)
              (new_image 1 None) eq_refl eq_refl eq_refl eq_refl)
    as [(n & _ & Hnext & _ & Hsave) _].
  exists n. split; [|exact Hnext].
  assert (ProductLine_save (new_line 1 None) sample_db
          = (inr tt, (ProductLine_save (new_line 1 None) sample_db).2)) as Hrun
    by (vm_compute; reflexivity).
  rewrite <- (Hsave _ Hrun). exact Hrun.
Defined.

(** The specification's example: two lines saved without an order get 1 and 2,
    and a third with the explicit order 2 is rejected. *)
Example two_lines_then_duplicate :
  let db0 := set_product_lines ∅ sample_db in
  let db1 := (ProductLine_save (new_line 1 None) db0).2 in
  let db2 := (ProductLine_save (new_line 1 None) db1).2 in
  pl_order <$> product_lines db2 !! 0 = Some 1%N ∧
  pl_order <$> product_lines db2 !! 1 = Some 2%N ∧
  size (product_lines db2) = 2%nat ∧
  ProductLine_save (new_line 1 (Some 2%N)) db2
    = (inl (ValidationError "Duplicate value."), db2).
Proof. vm_compute. done. Qed.

(** ** Sibling orders stay distinct *)

Lemma ProductLine_save_order_unique (self : ProductLine) (db db' : DB) :
  catalogue_order_unique db →
  ProductLine_save self db = (inr tt, db') →
  catalogue_order_unique db'.
Proof.
  intros [Hl Hi] (_ & _ & Hclean & ->)%ProductLine_save_ok.
  split; [|done]. simpl.
  apply save_table_order_unique; [done|]. simpl.
  apply pre_save_free. intros v Hv Htaken.
  pose proof (proj2 (clean_loop_filter_raises pl_product pl_order (line_id self)
                       (line_order self) (line_product self) (product_lines db)))
    as Hraise.
  rewrite Hv in Hraise, Hclean. rewrite Hraise in Hclean; done.
Qed.

Lemma ProductImage_save_order_unique (self : ProductImage) (db db' : DB) :
  catalogue_order_unique db →
  ProductImage_save self db = (inr tt, db') →
  catalogue_order_unique db'.
Proof.
  intros [Hl Hi] (_ & _ & Hclean & ->)%ProductImage_save_ok.
  split; [done|]. simpl.
  apply save_table_order_unique; [done|]. simpl.
  apply pre_save_free. intros v Hv Htaken.
  pose proof (proj2 (clean_loop_filter_raises pi_product_line pi_order
                       (image_id self) (image_order self)
                       (image_product_line self) (product_images db)))
    as Hraise.
  rewrite Hv in Hraise, Hclean. rewrite Hraise in Hclean; done.
Qed.

(** The join saves write neither ordered table. *)
Lemma ProductLineAttributeValue_save_tables (self : ProductLineAttributeValue)
    (db : DB) :
  let db' := (ProductLineAttributeValue_save self db).2 in
  attribute_values db' = attribute_values db ∧
  product_lines db' = product_lines db ∧
  product_images db' = product_images db ∧
  product_attribute_values db' = product_attribute_values db.
Proof.
  unfold ProductLineAttributeValue_save, ProductLineAttributeValue_full_clean,
    ProductLineAttributeValue_clean, ProductLineAttributeValue_validate_unique,
    ProductLineAttributeValue_super_save, mbind, M_bind, get_store, put_store, raise.
  repeat (case_match; simplify_eq/=; try done).
Qed.

Lemma ProductAttributeValue_save_tables (self : ProductAttributeValue) (db : DB) :
  let db' := (ProductAttributeValue_save self db).2 in
  attribute_values db' = attribute_values db ∧
  product_lines db' = product_lines db ∧
  product_images db' = product_images db ∧
  product_line_attribute_values db' = product_line_attribute_values db.
Proof.
  unfold ProductAttributeValue_save, mbind, M_bind, get_store, put_store, raise.
  simpl. destruct (unique_together_conflict _ _ _ _ _ _); [done|].
  by destruct (bool_decide _).
Qed.

Lemma write_order_unique (w : Write) (db db' : DB) :
  catalogue_order_unique db →
  write w db = (inr tt, db') →
  catalogue_order_unique db'.
Proof.
  destruct w as [self|self|self|self]; simpl.
  - apply ProductLine_save_order_unique.
  - apply ProductImage_save_order_unique.
  - intros [Hl Hi] Hsave.
    destruct (ProductLineAttributeValue_save_tables self db) as (_ & El & Ei & _).
    rewrite Hsave in El, Ei. simpl in El, Ei. unfold catalogue_order_unique.
    by rewrite El, Ei.
  - intros [Hl Hi] Hsave.
    destruct (ProductAttributeValue_save_tables self db) as (_ & El & Ei & _).
    rewrite Hsave in El, Ei. simpl in El, Ei. unfold catalogue_order_unique.
    by rewrite El, Ei.
Qed.

(** C2: starting from a store in which the lines of every product and the
    images of every line carry pairwise distinct orders, every run of
    successful saves (with the order left unset or supplied) ends in such a
    store again. *)
Theorem saves_preserve_order_unique (ws : list Write) (db db' : DB) :
  catalogue_order_unique db →
  save_all write ws db = (inr tt, db') →
  catalogue_order_unique db'.
Proof.
  revert db. induction ws as [|w rest IH]; intros db Hinv; simpl.
  - by intros [= <-].
  - unfold mbind, M_bind.
    destruct (write w db) as [[e|[]] db1] eqn:Hw; [done|].
    intros Hrest. apply (IH db1); [|done]. by apply (write_order_unique w db).
Qed.

Lemma sample_db_order_unique : catalogue_order_unique sample_db.
Proof.
  split; intros i j r1 r2 Hi Hj Hij Hp; simpl in Hi, Hj;
    repeat (apply lookup_insert_Some in Hi as [[<- <-]|[_ Hi]]);
    try (by rewrite lookup_empty in Hi);
    repeat (apply lookup_insert_Some in Hj as [[<- <-]|[_ Hj]]);
    try (by rewrite lookup_empty in Hj); done.
Qed.

Lemma saves_preserve_order_unique_witness :
  catalogue_order_unique (save_all write sample_writes sample_db).2.
Proof.
  apply (saves_preserve_order_unique sample_writes sample_db).
  - exact sample_db_order_unique.
  - vm_compute. reflexivity.
Defined.

(** ** The sibling-order validator *)







(** ** The join validators *)

Lemma exists_true {A} (l : list A) : exists_ l = true ↔ ∃ x, x ∈ l.
Proof.
  destruct l as [|x l]; simpl.
  - split; [done|]. intros [x Hx]. by apply elem_of_nil in Hx.
  - split; [|done]. intros _. exists x. left.
Qed.

Lemma join_exists_spec (self : ProductLineAttributeValue) (db : DB) :
  exists_ (filter (λ kr, plav_product_line kr.2 = join_product_line self)
             (objects_filter plav_attribute_value (join_attribute_value self)
                             (product_line_attribute_values db))) = true
  ↔ pair_stored self db.
Proof.
  rewrite exists_true. split.
  - intros [[j r] [Hpl Hin]%list_elem_of_filter].
    apply elem_of_objects_filter in Hin as [Hj Hav]. by exists j, r.
  - intros (j & r & Hj & _ & Hav & Hpl). exists (j, r).
    apply list_elem_of_filter. split; [done|]. by apply elem_of_objects_filter.
Qed.

Lemma elem_of_attribute_pks_of_line (product_line a : Z) (db : DB) :
  a ∈ attribute_pks_of_line product_line db ↔ line_has_attribute product_line a db.
Proof.
  unfold attribute_pks_of_line. rewrite list_elem_of_omap. split.
  - intros ([j r] & Hin & Hv). apply elem_of_objects_filter in Hin as [Hj Hpl].
    simpl in Hv. destruct (attribute_values db !! plav_attribute_value r) as [v|] eqn:E;
      [|done]. simpl in Hv. exists j, r, v. naive_solver.
  - intros (j & r & v & Hj & Hpl & Hv & Ha). exists (j, r).
    split; [by apply elem_of_objects_filter|]. simpl. by rewrite Hv, <- Ha.
Qed.

(** A stored pair is taken with respect to a new instance. *)
Lemma pair_taken_None {Row} (f g : Row → Z) id x y (t : gmap Z Row) :
  pair_taken f g id x y t → pair_taken f g None x y t.
Proof. intros (j & r & Hj & _ & Hf & Hg). by exists j, r. Qed.

(** The outcome of saving a join, case by case. *)
Lemma ProductLineAttributeValue_save_eq (self : ProductLineAttributeValue) (db : DB) :
  ProductLineAttributeValue_save self db =
  if exists_ (filter (λ kr, plav_product_line kr.2 = join_product_line self)
                (objects_filter plav_attribute_value (join_attribute_value self)
                                (product_line_attribute_values db)))
  then
    if unique_together_conflict plav_attribute_value plav_product_line (join_id self)
         (join_attribute_value self) (join_product_line self)
         (product_line_attribute_values db)
    then (inl (ValidationError
            "Product line attribute value with this Attribute value and Product line already exists."),
          db)
    else (inr tt,
          set_product_line_attribute_values
            (save_table (join_id self) (ProductLineAttributeValue_row self)
                        (product_line_attribute_values db)) db)
  else
    match attribute_values db !! join_attribute_value self with
    | None => (inl ObjectDoesNotExist, db)
    | Some v =>
        if bool_decide (av_attribute v ∈
                          attribute_pks_of_line (join_product_line self) db)
        then (inl (ValidationError "Duplicate attribute exists"), db)
        else (inr tt,
              set_product_line_attribute_values
                (save_table (join_id self) (ProductLineAttributeValue_row self)
                            (product_line_attribute_values db)) db)
    end.
Proof.
  unfold ProductLineAttributeValue_save, ProductLineAttributeValue_full_clean,
    ProductLineAttributeValue_clean, ProductLineAttributeValue_validate_unique,
    ProductLineAttributeValue_super_save, mbind, M_bind, get_store, put_store, raise.
  destruct (exists_ _) eqn:Hex; simpl.
  - destruct (unique_together_conflict _ _ _ _ _ _) eqn:Hc; simpl; [done|].
    by rewrite Hc.
  - destruct (attribute_values db !! join_attribute_value self) as [v|]; [|done].
    destruct (bool_decide _); [done|]. simpl.
    destruct (unique_together_conflict _ _ _ _ _ _) eqn:Hc; [|by rewrite ?Hc].
    apply unique_together_conflict_spec, pair_taken_None in Hc.
    apply join_exists_spec in Hc. congruence.
Qed.

Lemma set_product_line_attribute_values_id (db : DB) :
  set_product_line_attribute_values (product_line_attribute_values db) db = db.
Proof. by destruct db. Qed.




(** The specification's example: the line is Red; Blue (same attribute) is
    refused, Large (another attribute) is accepted. *)
Example red_then_blue_then_large :
  ProductLineAttributeValue_save (new_join 11 1) sample_db
    = (inl (ValidationError "Duplicate attribute exists"), sample_db) ∧
  (ProductLineAttributeValue_save (new_join 12 1) sample_db).1 = inr tt.
Proof. vm_compute. done. Qed.

(** Where a line holds two values of one attribute (the attribute of a
    stored value can be edited), saving one of the stored joins again
    passes: the attribute check is skipped once the pair is found. *)
Example resave_with_two_values_passes :
  line_has_other_value_of_same_attribute 1 10 two_colors_db ∧
  ProductLineAttributeValue_save loaded_join_1 two_colors_db = (inr tt, two_colors_db).
Proof.
  split.
  - exists {| av_attribute_value := "Red"; av_attribute := 1 |}, 2,
      {| plav_attribute_value := 12; plav_product_line := 1 |},
      {| av_attribute_value := "Large"; av_attribute := 1 |}.
    split_and!; done.
  - vm_compute. reflexivity.
Qed.

(** ** Validate, then persist *)

(** [full_clean] only reads the store. *)
Lemma ProductLineAttributeValue_full_clean_store (self : ProductLineAttributeValue)
    (db : DB) :
  (ProductLineAttributeValue_full_clean self db).2 = db.
Proof.
  unfold ProductLineAttributeValue_full_clean, ProductLineAttributeValue_clean,
    ProductLineAttributeValue_validate_unique, mbind, M_bind.
  repeat (case_match; simplify_eq/=; try done).
Qed.

(** C5: when the save of a ProductLine or of a ProductLine-to-AttributeValue
    join raises, the exception is the one raised by [full_clean], which runs
    before anything is written, and the store is exactly the store from
    before the save. *)
Theorem validation_failure_aborts_save (db : DB) (line : ProductLine)
    (join : ProductLineAttributeValue) :
  (∀ e db', ProductLine_save line db = (inl e, db') →
            db' = db ∧ ProductLine_full_clean line db = (inl e, db)) ∧
  (∀ e db', ProductLineAttributeValue_save join db = (inl e, db') →
            db' = db ∧ ProductLineAttributeValue_full_clean join db = (inl e, db)).
Proof.
  split; intros e db'.
  - apply ProductLine_save_fail.
  - unfold ProductLineAttributeValue_save, mbind, M_bind.
    pose proof (ProductLineAttributeValue_full_clean_store join db) as Hst.
    destruct (ProductLineAttributeValue_full_clean join db) as [[e0|[]] db0] eqn:Hfc;
      simpl in Hst; subst db0.
    + by intros [= <- <-].
    + intros Hsuper. exfalso. revert Hfc Hsuper.
      unfold ProductLineAttributeValue_full_clean, ProductLineAttributeValue_clean,
        ProductLineAttributeValue_validate_unique,
        ProductLineAttributeValue_super_save, mbind, M_bind, get_store, put_store,
        raise.
      repeat (case_match; simplify_eq/=; try done).
Qed.

Lemma validation_failure_aborts_save_witness :
  (ProductLine_save (new_line 1 (Some 2%N)) sample_db).2 = sample_db ∧
  (ProductLineAttributeValue_save (new_join 11 1) sample_db).2 = sample_db.
Proof.
  destruct (validation_failure_aborts_save sample_db (new_line 1 (Some 2%N))
              (new_join 11 1)) as [Hline Hjoin].
  split.
  - apply (Hline (ValidationError "Duplicate value.")). vm_compute. reflexivity.
  - apply (Hjoin (ValidationError "Duplicate attribute exists")).
    vm_compute. reflexivity.
Defined.

(** ** The serializers *)

Lemma mapM_inr {A B} (f : A → Exc + B) (g : A → B) (l : list A) :
  (∀ x, f x = inr (g x)) → mapM f l = inr (g <$> l).
Proof.
  intros Hf. induction l as [|x l IH]; [done|].
  simpl. rewrite Hf. simpl. by rewrite IH.
Qed.

Lemma flatten_loop_by_id (acc : dict) (values : list AttributeValue) :
  flatten_loop (KStr "id") acc
    (PDict ∘ AttributeValueSerializer_to_representation <$> values)
  = inr (flat_map_of by_attribute_id acc values).
Proof.
  revert acc. induction values as [|av values IH]; intros acc; [done|].
  simpl. rewrite <- IH. reflexivity.
Qed.

Lemma flatten_loop_by_name (acc : dict) (values : list AttributeValue) :
  flatten_loop (KStr "name") acc
    (PDict ∘ AttributeValueSerializer_to_representation <$> values)
  = inr (flat_map_of by_attribute_name acc values).
Proof.
  revert acc. induction values as [|av values IH]; intros acc; [done|].
  simpl. rewrite <- IH. reflexivity.
Qed.

(** Later updates overwrite earlier ones: each key holds the text of the
    last value filed under it. *)
Lemma flat_map_of_lookup (key_of : AttributeValue → pykey) (acc : dict)
    (values : list AttributeValue) (k : pykey) :
  flat_map_of key_of acc values !! k =
  match last_value_for key_of values k with
  | Some v => Some v
  | None => acc !! k
  end.
Proof.
  unfold flat_map_of, last_value_for.
  induction values as [|av values IH] using rev_ind; [done|].
  rewrite foldl_app, filter_app. simpl.
  destruct (decide (key_of av = k)) as [<-|Hne].
  - rewrite filter_cons_True, filter_nil by done.
    rewrite last_snoc. simpl. by rewrite lookup_insert_eq.
  - rewrite filter_cons_False, filter_nil, app_nil_r by done.
    by rewrite lookup_insert_ne.
Qed.

Lemma ProductLineSerializer_to_representation_eq (line : ProductLineView) :
  ProductLineSerializer_to_representation line = inr (ProductLine_document line).
Proof.
  unfold ProductLineSerializer_to_representation.
  change (dict_pop (KStr "attribute_value") (ProductLineSerializer_super line))
    with (inr (B := pyval * dict)
            (PList (PDict ∘ AttributeValueSerializer_to_representation
                      <$> lv_attribute_value line),
             delete (KStr "attribute_value") (ProductLineSerializer_super line))
          : Exc + pyval * dict).
  simpl. by rewrite flatten_loop_by_id.
Qed.

Lemma ProductSerializer_to_representation_eq (product : Product) :
  ProductSerializer_to_representation product = inr (Product_document product).
Proof.
  unfold ProductSerializer_to_representation, ProductSerializer_super.
  rewrite (mapM_inr _ ProductLine_document)
    by apply ProductLineSerializer_to_representation_eq.
  simpl. unfold dict_pop.
  rewrite lookup_insert_ne, lookup_insert_ne, lookup_insert_ne, lookup_insert_ne,
    lookup_insert_ne, lookup_insert_eq by done.
  simpl. rewrite flatten_loop_by_name. simpl. f_equal. f_equal.
  rewrite !delete_insert_ne by done.
  rewrite delete_insert_eq, delete_empty. unfold Product_document.
  by rewrite list_fmap_compose.
Qed.

(** C6: a serialized ProductLine carries [specification], a flat map from
    attribute id to value text with one entry per attribute of the line's
    values; a serialized Product carries [attribute], the same map keyed by
    attribute name; neither keeps the nested [attribute_value] list. *)
Theorem to_representation_flattens_attribute_values (line : ProductLineView)
    (product : Product) :
  (∃ data spec,
     ProductLineSerializer_to_representation line = inr data ∧
     data !! KStr "specification" = Some (PDict spec) ∧
     (∀ k, spec !! k = last_value_for by_attribute_id (lv_attribute_value line) k) ∧
     data !! KStr "attribute_value" = None) ∧
  (∃ data attrs lines,
     ProductSerializer_to_representation product = inr data ∧
     data !! KStr "attribute" = Some (PDict attrs) ∧
     (∀ k, attrs !! k
           = last_value_for by_attribute_name (product_attribute_value product) k) ∧
     data !! KStr "attribute_value" = None ∧
     mapM ProductLineSerializer_to_representation (product_product_line product)
       = inr lines ∧
     data !! KStr "product_line" = Some (PList (PDict <$> lines))).
Proof.
  split.
  - exists (ProductLine_document line),
      (flat_map_of by_attribute_id ∅ (lv_attribute_value line)).
    split_and!.
    + apply ProductLineSerializer_to_representation_eq.
    + apply lookup_insert_eq.
    + intros k. rewrite flat_map_of_lookup, lookup_empty.
      by destruct (last_value_for _ _ _).
    + unfold ProductLine_document.
      rewrite lookup_insert_ne by done. apply lookup_delete_eq.
  - exists (Product_document product),
      (flat_map_of by_attribute_name ∅ (product_attribute_value product)),
      (ProductLine_document <$> product_product_line product).
    split_and!.
    + apply ProductSerializer_to_representation_eq.
    + apply lookup_insert_eq.
    + intros k. rewrite flat_map_of_lookup, lookup_empty.
      by destruct (last_value_for _ _ _).
    + reflexivity.
    + apply mapM_inr, ProductLineSerializer_to_representation_eq.
    + unfold Product_document. rewrite <- list_fmap_compose. reflexivity.
Qed.

(** A line that is Red and Large: the specification has both attributes. *)
Example first_line_specification :
  ∃ data, ProductLineSerializer_to_representation first_line = inr data ∧
          data !! KStr "specification"
            = Some (PDict (<[KInt 1 := PStr "Red"]> (<[KInt 2 := PStr "Large"]> ∅))) ∧
          dom data = {[KStr "price"; KStr "sku"; KStr "stock_qty"; KStr "order";
                       KStr "product_image"; KStr "specification"]}.
Proof.
  eexists. split; [apply ProductLineSerializer_to_representation_eq|].
  split; [vm_compute; reflexivity|].
  unfold ProductLine_document, ProductLineSerializer_super.
  rewrite dom_insert_L, dom_delete_L, !dom_insert_L, dom_empty_L. set_solver.
Qed.

(** ** The product-level join and the [attribute] map *)

Lemma ProductAttributeValue_save_eq (self : ProductAttributeValue) (db : DB) :
  ProductAttributeValue_save self db =
  if unique_together_conflict pav_attribute_value pav_product (pjoin_id self)
       (pjoin_attribute_value self) (pjoin_product self)
       (product_attribute_values db)
  then (inl IntegrityError, db)
  else if bool_decide (attribute_values db !! pjoin_attribute_value self = None
                       ∨ products db !! pjoin_product self = None)
  then (inl IntegrityError, db)
  else (inr tt,
        set_product_attribute_values
          (save_table (pjoin_id self) (ProductAttributeValue_row self)
                      (product_attribute_values db)) db).
Proof.
  unfold ProductAttributeValue_save, mbind, M_bind, get_store, put_store, raise.
  simpl. destruct (unique_together_conflict _ _ _ _ _ _); [done|].
  by destruct (bool_decide _).
Qed.

Lemma foreign_keys_resolve (self : ProductAttributeValue) (db : DB) :
  bool_decide (attribute_values db !! pjoin_attribute_value self = None
               ∨ products db !! pjoin_product self = None) = false ↔
  is_Some (attribute_values db !! pjoin_attribute_value self) ∧
  is_Some (products db !! pjoin_product self).
Proof.
  rewrite bool_decide_eq_false, <- !not_eq_None_Some. tauto.
Qed.

Lemma last_value_for_last (key_of : AttributeValue → pykey)
    (before after : list AttributeValue) (av : AttributeValue) :
  (∀ x, x ∈ after → key_of x ≠ key_of av) →
  last_value_for key_of (before ++ av :: after) (key_of av)
  = Some (PStr (value_attribute_value av)).
Proof.
  intros Hafter. unfold last_value_for.
  rewrite filter_app, filter_cons_True by done.
  assert (filter (λ x, key_of x = key_of av) after = []) as ->.
  { induction after as [|x after IH]; [done|].
    rewrite filter_cons_False by (apply Hafter; left).
    apply IH. intros y Hy. apply Hafter. by right. }
  by rewrite last_snoc.
Qed.

(** C9: saving a Product-to-AttributeValue join succeeds exactly when its
    value and its product exist and no other stored join has the same
    (attribute_value, product) pair, whatever attribute the value belongs
    to; and when a product holds two values of one Attribute, the serialized
    [attribute] map has, under that attribute's name, the text of the one
    that comes last in the list. *)
Theorem product_attribute_last_value_wins (db : DB) (join : ProductAttributeValue)
    (product : Product) :
  ((ProductAttributeValue_save join db).1 = inr tt ↔
   ¬ pair_taken pav_attribute_value pav_product (pjoin_id join)
       (pjoin_attribute_value join) (pjoin_product join)
       (product_attribute_values db) ∧
   is_Some (attribute_values db !! pjoin_attribute_value join) ∧
   is_Some (products db !! pjoin_product join)) ∧
  (∃ data attrs,
     ProductSerializer_to_representation product = inr data ∧
     data !! KStr "attribute" = Some (PDict attrs) ∧
     ∀ l1 a l2 b l3,
       product_attribute_value product = l1 ++ a :: l2 ++ b :: l3 →
       value_attribute a = value_attribute b →
       (∀ x, x ∈ l3 → attribute_name (value_attribute x)
                       ≠ attribute_name (value_attribute b)) →
       attrs !! KStr (attribute_name (value_attribute a))
         = Some (PStr (value_attribute_value b))).
Proof.
  split.
  - rewrite ProductAttributeValue_save_eq.
    destruct (unique_together_conflict _ _ _ _ _ _) eqn:Hc; simpl.
    + apply unique_together_conflict_spec in Hc. split; [done|]. by intros [? _].
    + assert (¬ pair_taken pav_attribute_value pav_product (pjoin_id join)
                (pjoin_attribute_value join) (pjoin_product join)
                (product_attribute_values db)) as Hfree.
      { intros Ht%unique_together_conflict_spec. congruence. }
      destruct (bool_decide _) eqn:Hfk; simpl.
      * split; [done|]. intros (_ & Hv & Hp).
        assert (bool_decide
                  (attribute_values db !! pjoin_attribute_value join = None
                   ∨ products db !! pjoin_product join = None) = false) as Hno
          by by apply foreign_keys_resolve.
        congruence.
      * apply foreign_keys_resolve in Hfk. split; [|done]. intros _. tauto.
  - exists (Product_document product),
      (flat_map_of by_attribute_name ∅ (product_attribute_value product)).
    split_and!.
    + apply ProductSerializer_to_representation_eq.
    + apply lookup_insert_eq.
    + intros l1 a l2 b l3 Hl Hab Hafter.
      rewrite flat_map_of_lookup, Hl, Hab.
      replace (l1 ++ a :: l2 ++ b :: l3) with ((l1 ++ a :: l2) ++ b :: l3)
        by by rewrite <- app_assoc.
      change (KStr (attribute_name (value_attribute b))) with (by_attribute_name b).
      rewrite last_value_for_last; [done|].
      intros x Hx. unfold by_attribute_name. specialize (Hafter x Hx). congruence.
Qed.

Lemma product_attribute_last_value_wins_witness :
  (ProductAttributeValue_save (new_product_join 11 1) sample_db).1 = inr tt ∧
  ∃ data attrs,
    ProductSerializer_to_representation (sample_product "runner" true []) = inr data ∧
    data !! KStr "attribute" = Some (PDict attrs) ∧
    attrs !! KStr "Color" = Some (PStr "Blue").
Proof.
  destruct (product_attribute_last_value_wins sample_db (new_product_join 11 1)
              (sample_product "runner" true []))
    as [Hsave (data & attrs & Hdata & Hattrs & Hlast)].
  split.
  - apply Hsave. split_and!; [|by eexists|by eexists].
    intros (j & r & Hj & _ & Hv & _). simpl in Hj.
    apply lookup_insert_Some in Hj as [[_ <-]|[_ Hj]]; [done|].
    by rewrite lookup_empty in Hj.
  - exists data, attrs. split_and!; [done|done|].
    apply (Hlast [] red [] blue []); [done|done|].
    intros x Hx. by apply elem_of_nil in Hx.
Defined.

(** Red and Blue are both Color: the product-level join accepts the second,
    and the map keeps one entry, Blue. *)
Example two_colors_on_a_product :
  (ProductAttributeValue_save (new_product_join 11 1) sample_db).1 = inr tt ∧
  (ProductAttributeValue_save (new_product_join 10 1) sample_db).1
    = inl IntegrityError ∧
  flat_map_of by_attribute_name ∅ [red; blue] = {[KStr "Color" := PStr "Blue"]}.
Proof. vm_compute. done. Qed.

(** ** The category listing of products *)

Lemma ProductCategorySerializer_to_representation_eq (product : Product) :
  ProductCategorySerializer_to_representation product
  = inr (ProductCategory_document product).
Proof.
  unfold ProductCategorySerializer_to_representation, ProductCategory_document.
  change (dict_pop (KStr "product_line") (ProductCategorySerializer_super product))
    with (inr (B := pyval * dict)
            (PList (PDict ∘ ProductLineCategorySerializer_to_representation
                      <$> product_product_line product),
             delete (KStr "product_line") (ProductCategorySerializer_super product))
          : Exc + pyval * dict).
  simpl. by destruct (product_product_line product) as [|first rest].
Qed.

Lemma qs_iter_filter {A} (p : A → bool) (queryset : QuerySet A) (table : list A) :
  (qs_iter table (qs_filter p queryset)).1
  = List.filter (λ a, qs_query queryset a && p a) table.
Proof. done. Qed.

(** C10: in the product-in-category document, [price] and [image] are
    those of the first product line; a product without lines has neither
    key, and serializing it raises nothing.  The endpoint returns these
    documents for the active products of the category. *)
Theorem category_listing_hoists_first_line (table : list Product) (slug : string)
    (product : Product) :
  (∃ data,
     ProductCategorySerializer_to_representation product = inr data ∧
     match product_product_line product with
     | first :: _ =>
         data !! KStr "price" = Some (PDecimal (lv_price first)) ∧
         data !! KStr "image"
           = Some (PList (PDict ∘ ProductImageSerializer_to_representation
                            <$> lv_product_image first))
     | [] => data !! KStr "price" = None ∧ data !! KStr "image" = None
     end) ∧
  ProductViewSet_list_product_by_category_slug table slug
  = inr (ProductCategory_document
           <$> List.filter
                 (λ p, product_is_active p
                       && bool_decide (category_slug (product_category p) = slug))
                 table).
Proof.
  split.
  - exists (ProductCategory_document product).
    split; [apply ProductCategorySerializer_to_representation_eq|].
    unfold ProductCategory_document.
    destruct (product_product_line product) as [|first rest]; simpl.
    + split; reflexivity.
    + split; [|apply lookup_insert_eq].
      rewrite lookup_insert_ne by done. apply lookup_insert_eq.
  - unfold ProductViewSet_list_product_by_category_slug.
    rewrite qs_iter_filter.
    rewrite (mapM_inr _ ProductCategory_document)
      by apply ProductCategorySerializer_to_representation_eq.
    reflexivity.
Qed.

(** A product with two lines shows the first line's price and images; a
    product without lines has four keys and no price. *)
Example category_documents :
  ProductViewSet_list_product_by_category_slug
    [sample_product "runner" true [first_line; second_line];
     sample_product "bare" true [];
     sample_product "hidden" false [first_line]] "shoes"
  = inr [ <[KStr "name" := PStr "Runner"]>
            (<[KStr "slug" := PStr "runner"]>
               (<[KStr "pid" := PStr "p-1"]>
                  (<[KStr "created_at" := PDateTime 0]>
                     (<[KStr "price" := PDecimal 1999]>
                        (<[KStr "image" :=
                             PList [PDict (ProductImageSerializer_to_representation front)]]>
                           ∅)))));
          <[KStr "name" := PStr "Runner"]>
            (<[KStr "slug" := PStr "bare"]>
               (<[KStr "pid" := PStr "p-1"]>
                  (<[KStr "created_at" := PDateTime 0]> ∅))) ].
Proof. vm_compute. reflexivity. Qed.

(** ** Retrieval by slug *)

Lemma filter_nil_of_false {A} (p : A → bool) (l : list A) :
  (∀ x, x ∈ l → p x = false) → List.filter p l = [].
Proof.
  induction l as [|x l IH]; intros Hp; [done|]. simpl.
  rewrite (Hp x) by left. apply IH. intros y Hy. apply Hp. by right.
Qed.

(** C8: when no active product has the slug, be it because the product is
    inactive or because there is none, retrieval returns the empty list and
    raises nothing. *)
Theorem retrieve_without_active_match (table : list Product) (slug : string) :
  (∀ p, p ∈ table → product_is_active p = true → product_slug p ≠ slug) →
  ProductViewSet_retrieve table slug = inr [].
Proof.
  intros Hnone. unfold ProductViewSet_retrieve.
  rewrite qs_iter_filter, filter_nil_of_false; [done|].
  intros p Hp. simpl.
  destruct (product_is_active p) eqn:Hact; [|done].
  by rewrite bool_decide_eq_false_2 by by apply Hnone.
Qed.

Lemma retrieve_without_active_match_witness :
  ProductViewSet_retrieve
    [sample_product "runner" true [first_line];
     sample_product "hidden" false [first_line]] "hidden" = inr [] ∧
  ProductViewSet_retrieve
    [sample_product "runner" true [first_line];
     sample_product "hidden" false [first_line]] "absent" = inr [].
Proof.
  split; apply retrieve_without_active_match; intros p Hp Hact;
    repeat (apply elem_of_cons in Hp as [->|Hp]; [by simplify_eq/=|]);
    by apply elem_of_nil in Hp.
Defined.

(** Retrieval of an active product returns its single document. *)
Example retrieve_active :
  ProductViewSet_retrieve
    [sample_product "runner" true [first_line];
     sample_product "hidden" false [first_line]] "runner"
  = inr [Product_document (sample_product "runner" true [first_line])].
Proof. vm_compute. reflexivity. Qed.

(** ** The category listing *)

(** Each element has exactly the fields [category] and [slug], [category]
    carrying the name. *)
Lemma CategorySerializer_fields (c : Category) :
  dom (CategorySerializer_to_representation c) = {[KStr "category"; KStr "slug"]} ∧
  CategorySerializer_to_representation c !! KStr "category"
    = Some (PStr (category_name c)) ∧
  CategorySerializer_to_representation c !! KStr "slug"
    = Some (PStr (category_slug c)).
Proof.
  unfold CategorySerializer_to_representation. split_and!.
  - rewrite !dom_insert_L, dom_empty_L. set_solver.
  - apply lookup_insert_eq.
  - rewrite lookup_insert_ne by done. apply lookup_insert_eq.
Qed.

(** The first request of a process runs the query: the response lists the
    categories that are active at that moment. *)
Lemma CategoryViewSet_list_first_request (table : list Category) :
  (CategoryViewSet_list CategoryViewSet_queryset table).1
  = CategorySerializer_to_representation <$> List.filter category_is_active table.
Proof. done. Qed.

(** Once the class-level queryset has been iterated, the response no
    longer depends on the table. *)
Lemma CategoryViewSet_list_cached (queryset : QuerySet Category)
    (rows table : list Category) :
  qs_result_cache queryset = Some rows →
  CategoryViewSet_list queryset table
  = (CategorySerializer_to_representation <$> rows, queryset).
Proof.
  intros Hc. unfold CategoryViewSet_list, qs_iter. by rewrite Hc.
Qed.

Lemma CategoryViewSet_serve_cached (queryset : QuerySet Category)
    (rows : list Category) (tables : list (list Category)) :
  qs_result_cache queryset = Some rows →
  CategoryViewSet_serve queryset tables
  = replicate (length tables) (CategorySerializer_to_representation <$> rows).
Proof.
  intros Hc. induction tables as [|table later IH]; [done|].
  simpl. rewrite (CategoryViewSet_list_cached queryset rows table Hc).
  by rewrite IH.
Qed.

(** Every response of a process repeats the first one. *)
Lemma CategoryViewSet_serve_repeats_first (table : list Category)
    (later : list (list Category)) :
  CategoryViewSet_serve CategoryViewSet_queryset (table :: later)
  = replicate (S (length later))
      (CategorySerializer_to_representation
         <$> List.filter category_is_active table).
Proof.
  simpl. f_equal.
  by rewrite (CategoryViewSet_serve_cached _ (List.filter category_is_active table)).
Qed.

(** C7, where the code departs from it: after a first request that saw
    Shoes active, Shoes is deactivated and Hats is active; the second
    response of the same process still lists Shoes and does not list Hats,
    whereas the active categories at that moment are exactly Hats. *)
Theorem CategoryViewSet_list_serves_stale_rows :
  CategoryViewSet_serve CategoryViewSet_queryset [[shoes]; [shoes_hidden; hats]]
    = [[CategorySerializer_to_representation shoes];
       [CategorySerializer_to_representation shoes]] ∧
  CategorySerializer_to_representation <$>
    List.filter category_is_active [shoes_hidden; hats]
    = [CategorySerializer_to_representation hats] ∧
  CategorySerializer_to_representation shoes
    ≠ CategorySerializer_to_representation hats.
Proof.
  split_and!; [reflexivity|reflexivity|].
  intros Heq.
  assert (CategorySerializer_to_representation shoes !! KStr "slug"
          = CategorySerializer_to_representation hats !! KStr "slug") as Hs
    by by rewrite Heq.
  vm_compute in Hs. discriminate.
Qed.


(** * Further properties *)

(** ** The system check of [OrderField] *)

(** X1: [OrderField.check] reports nothing exactly when the inherited
    checks report nothing and [unique_for_field] names a field of the model;
    the field's own check adds at most one error, after the inherited ones,
    and both order fields of the catalogue pass it. *)
Theorem OrderField_check_passes_iff (super_check : list CheckError)
    (unique_for_field : option string) (field_names : list string) :
  (OrderField_check super_check unique_for_field field_names = [] ↔
   super_check = [] ∧ ∃ name, unique_for_field = Some name ∧ name ∈ field_names) ∧
  (length (_check_for_field_attribute unique_for_field field_names) ≤ 1)%nat ∧
  take (length super_check)
       (OrderField_check super_check unique_for_field field_names) = super_check ∧
  (∀ more, _check_for_field_attribute (Some "product")
             (ProductLine_declared_fields ++ more) = []) ∧
  (∀ more, _check_for_field_attribute (Some "product_line")
             (ProductImage_declared_fields ++ more) = []).
Proof.
  unfold OrderField_check, _check_for_field_attribute. split_and!.
  - split.
    + intros [-> Hown]%app_eq_nil. split; [done|].
      destruct unique_for_field as [name|]; [|done]. exists name. split; [done|].
      destruct (decide (name ∈ field_names)) as [|Hn]; [done|].
      by rewrite bool_decide_eq_true_2 in Hown.
    + intros [-> (name & -> & Hin)]. simpl.
      rewrite bool_decide_eq_false_2; [done|]. by intros Hn.
  - destruct unique_for_field as [name|]; simpl; [|lia].
    destruct (bool_decide _); simpl; lia.
  - by rewrite take_app_length.
  - intros more. rewrite bool_decide_eq_false_2; [done|].
    intros Hn. apply Hn, elem_of_app. left. unfold ProductLine_declared_fields.
    set_solver.
  - intros more. rewrite bool_decide_eq_false_2; [done|].
    intros Hn. apply Hn, elem_of_app. left. unfold ProductImage_declared_fields.
    set_solver.
Qed.

(** ** More on the ordering field *)

Section next_order_facts.
Context {Row : Type} (parent : Row → Z) (order : Row → N).
Implicit Types (t : gmap Z Row) (r : Row).

Lemma next_order_gt p t n i r :
  next_order parent order p t n → t !! i = Some r → parent r = p →
  (order r < n)%N.
Proof.
  intros [[H0 ->]|(m & [_ Hmax] & ->)] Hi Hp.
  - by destruct (H0 i r Hi).
  - specialize (Hmax i r Hi Hp). lia.
Qed.

Lemma next_order_pos p t n : next_order parent order p t n → (1 ≤ n)%N.
Proof. intros [[_ ->]|(m & _ & ->)]; lia. Qed.

(** Writing a row that carries the next order of its parent moves the next
    order on by one, whichever key it is written to. *)
Lemma next_order_insert p t n k r :
  next_order parent order p t n → parent r = p → order r = n →
  next_order parent order p (<[k := r]> t) (n + 1)%N.
Proof.
  intros Hn Hp Ho. right. exists n. split; [|done]. split.
  - exists k, r. by rewrite lookup_insert_eq.
  - intros i r' Hi Hp'. destruct (decide (i = k)) as [->|Hne].
    + rewrite lookup_insert_eq in Hi. injection Hi as <-. lia.
    + rewrite lookup_insert_ne in Hi by done.
      pose proof (next_order_gt p t n i r' Hn Hi Hp'). lia.
Qed.

(** A row added under a new key is no sibling for any other parent. *)
Lemma same_siblings_insert_other q t k r :
  t !! k = None → parent r ≠ q → same_siblings parent q t (<[k := r]> t).
Proof.
  intros Hk Hq i r' Hp. destruct (decide (i = k)) as [->|Hne].
  - rewrite lookup_insert_eq, Hk. split; [done|]. intros [= ->]. done.
  - by rewrite lookup_insert_ne.
Qed.
End next_order_facts.

(** X2: the sibling check never rejects a ProductLine whose order is
    unset, new or stored; and whenever the save of such a line succeeds, the
    order it writes is at least 1 and greater than the order of every line
    stored under the product before the save (the line's own former row
    included). *)
Theorem unset_order_goes_last (db : DB) (self : ProductLine) :
  line_order self = None →
  (∀ msg, (ProductLine_clean self db).1 ≠ inl (ValidationError msg)) ∧
  ∀ db', ProductLine_save self db = (inr tt, db') →
    ∃ n,
      db' = set_product_lines
              (save_table (line_id self) (ProductLine_row self n) (product_lines db))
              db ∧
      (1 ≤ n)%N ∧
      ∀ i r, product_lines db !! i = Some r → pl_product r = line_product self →
             (pl_order r < n)%N.
Proof.
  intros Ho. split.
  - intros msg. unfold ProductLine_clean.
    destruct (products db !! line_product self); simpl; [|done].
    by rewrite Ho, clean_loop_unset.
  - intros db' (_ & _ & _ & ->)%ProductLine_save_ok. rewrite Ho.
    exists (pre_save pl_product pl_order None (line_product self) (product_lines db)).
    pose proof (pre_save_next_order pl_product pl_order (line_product self)
                  (product_lines db)) as Hn.
    split_and!.
    + done.
    + by eapply next_order_pos.
    + intros i r Hi Hp. by eapply next_order_gt.
Qed.

(** Line 1 of the sample catalogue saved again with its order cleared. *)
Lemma unset_order_goes_last_witness :
  ∃ n,
    ProductLine_save cleared_line_1 sample_db =
      (inr tt,
       set_product_lines
         (<[1 := stored_line 1 n]> (product_lines sample_db)) sample_db) ∧
    (2 < n)%N.
Proof.
  destruct (unset_order_goes_last sample_db cleared_line_1 eq_refl) as [_ Hsave].
  destruct (Hsave (ProductLine_save cleared_line_1 sample_db).2)
    as (n & Hdb & _ & Hgt).
  - vm_compute. reflexivity.
  - exists n. split.
    + transitivity (inr (A := Exc) tt, (ProductLine_save cleared_line_1 sample_db).2).
      * vm_compute. reflexivity.
      * f_equal. exact Hdb.
    + apply (Hgt 2 (stored_line 1 2)); reflexivity.
Defined.

Lemma next_order_after_unset_save (db db' : DB) (self : ProductLine)
    (n : N) :
  line_id self = None → line_order self = None →
  next_order pl_product pl_order (line_product self) (product_lines db) n →
  ProductLine_save self db = (inr tt, db') →
  next_order pl_product pl_order (line_product self) (product_lines db')
             (n + 1)%N ∧
  ∀ q m, q ≠ line_product self →
         next_order pl_product pl_order q (product_lines db) m →
         next_order pl_product pl_order q (product_lines db') m.
Proof.
  intros Hid Ho Hn (_ & _ & _ & ->)%ProductLine_save_ok.
  pose proof (pre_save_next_order pl_product pl_order (line_product self)
                (product_lines db)) as Hpre.
  pose proof (next_order_unique _ _ _ _ _ _ Hpre Hn) as Heq.
  rewrite Hid, Ho, Heq. simpl. split.
  - by apply next_order_insert.
  - intros q m Hq Hm.
    eapply next_order_same_siblings; [|done].
    apply same_siblings_insert_other; [apply lookup_fresh_id|]. simpl. congruence.
Qed.

(** X3: a successful save of a new ProductLine with the order unset moves
    the next order of its product on by exactly one and leaves the next
    order of every other product as it was. *)
Theorem unset_save_advances_next_order (db db' : DB) (self : ProductLine) (n : N) :
  line_id self = None → line_order self = None →
  next_order pl_product pl_order (line_product self) (product_lines db) n →
  ProductLine_save self db = (inr tt, db') →
  next_order pl_product pl_order (line_product self) (product_lines db')
             (n + 1)%N ∧
  ∀ q m, q ≠ line_product self →
         next_order pl_product pl_order q (product_lines db) m →
         next_order pl_product pl_order q (product_lines db') m.
Proof. apply next_order_after_unset_save. Qed.

Lemma unset_save_advances_next_order_witness :
  next_order pl_product pl_order 1
    (product_lines (ProductLine_save (new_line 1 None) sample_db).2) 4%N.
Proof.
  assert (next_order pl_product pl_order 1 (product_lines sample_db) 3%N) as Hn.
  { assert (pre_save pl_product pl_order None 1 (product_lines sample_db) = 3%N)
      as <- by (vm_compute; reflexivity).
    apply pre_save_next_order. }
  assert (ProductLine_save (new_line 1 None) sample_db
          = (inr tt, (ProductLine_save (new_line 1 None) sample_db).2)) as Hrun
    by (vm_compute; reflexivity).
  destruct (unset_save_advances_next_order sample_db
              (ProductLine_save (new_line 1 None) sample_db).2
              (new_line 1 None) 3 eq_refl eq_refl Hn Hrun) as [Hnext _].
  exact Hnext.
Defined.

Lemma save_all_cons_ok {A} (save : A → M DB unit) (x : A) (xs : list A)
    (db db' : DB) :
  save_all save (x :: xs) db = (inr tt, db') →
  ∃ db1, save x db = (inr tt, db1) ∧ save_all save xs db1 = (inr tt, db').
Proof.
  simpl. unfold mbind, M_bind.
  destruct (save x db) as [[e|[]] db1]; [done|]. intros Hrest. by exists db1.
Qed.

(** X4: when a run of saves of new ProductLines of one product, all with
    the order unset, succeeds, the product's next order has moved on by the
    length of the run: the lines are numbered consecutively. *)
Theorem unset_saves_number_consecutively (ls : list ProductLine) (db db' : DB)
    (p : Z) (n : N) :
  Forall (λ l, line_id l = None ∧ line_order l = None ∧ line_product l = p) ls →
  next_order pl_product pl_order p (product_lines db) n →
  save_all ProductLine_save ls db = (inr tt, db') →
  next_order pl_product pl_order p (product_lines db')
             (n + N.of_nat (length ls))%N.
Proof.
  intros Hls. revert db n.
  induction Hls as [|l ls (Hid & Ho & Hp) Hls IH]; intros db n Hn.
  - intros [= <-]. simpl. by rewrite N.add_0_r.
  - subst p. intros (db1 & Hsave & Hrest)%save_all_cons_ok.
    destruct (next_order_after_unset_save db db1 l n Hid Ho Hn Hsave)
      as [Hnext _].
    replace (n + N.of_nat (length (l :: ls)))%N
      with (n + 1 + N.of_nat (length ls))%N by (simpl; lia).
    by apply (IH db1).
Qed.

Lemma unset_saves_number_consecutively_witness :
  next_order pl_product pl_order 5
    (product_lines
       (save_all ProductLine_save
          [new_line 5 None; new_line 5 None; new_line 5 None] sample_db).2) 4%N.
Proof.
  apply (unset_saves_number_consecutively
           [new_line 5 None; new_line 5 None; new_line 5 None] sample_db _ 5 1).
  - repeat constructor.
  - left. split; [|done]. intros i r Hi. simpl in Hi.
    repeat (apply lookup_insert_Some in Hi as [[_ <-]|[_ Hi]]; [done|]).
    by rewrite lookup_empty in Hi.
  - vm_compute. reflexivity.
Defined.

(** ** What a successful save writes *)

Lemma save_table_new {Row} (r : Row) (t : gmap Z Row) :
  t !! fresh (dom t) = None ∧
  save_table None r t !! fresh (dom t) = Some r ∧
  (∀ j, j ≠ fresh (dom t) → save_table None r t !! j = t !! j) ∧
  size (save_table None r t) = S (size t).
Proof.
  pose proof (lookup_fresh_id t) as Hk. simpl. split_and!.
  - done.
  - apply lookup_insert_eq.
  - intros j Hj. by rewrite lookup_insert_ne.
  - by apply map_size_insert_None.
Qed.

Lemma save_table_stored {Row} (i : Z) (r : Row) (t : gmap Z Row) :
  save_table (Some i) r t !! i = Some r ∧
  (∀ j, j ≠ i → save_table (Some i) r t !! j = t !! j) ∧
  dom (save_table (Some i) r t) = {[i]} ∪ dom t.
Proof.
  simpl. split_and!.
  - apply lookup_insert_eq.
  - intros j Hj. by rewrite lookup_insert_ne.
  - apply dom_insert_L.
Qed.





(** X7: a successful save of a ProductImage writes one row of the image
    table and nothing else: a new image goes under an unused id, an image
    with an id replaces the row of that id; the row holds the columns of the
    instance, with the supplied order if there is one, and the lines and
    joins are untouched. *)
Theorem image_save_writes_one_row (db db' : DB) (self : ProductImage) :
  ProductImage_save self db = (inr tt, db') →
  ∃ k n,
    match image_id self with
    | Some i => k = i
    | None => product_images db !! k = None
    end ∧
    product_images db' !! k = Some (ProductImage_row self n) ∧
    (∀ o, image_order self = Some o → n = o) ∧
    (image_order self = None →
     next_order pi_product_line pi_order (image_product_line self)
                (product_images db) n) ∧
    (∀ j, j ≠ k → product_images db' !! j = product_images db !! j) ∧
    attribute_values db' = attribute_values db ∧
    product_lines db' = product_lines db ∧
    product_attribute_values db' = product_attribute_values db ∧
    product_line_attribute_values db' = product_line_attribute_values db.
Proof.
  intros (_ & _ & _ & ->)%ProductImage_save_ok.
  set (n := pre_save pi_product_line pi_order (image_order self)
              (image_product_line self) (product_images db)).
  assert (∀ o, image_order self = Some o → n = o) as Hexp.
  { intros o Ho. unfold n. by rewrite Ho. }
  assert (image_order self = None →
          next_order pi_product_line pi_order (image_product_line self)
                     (product_images db) n) as Hunset.
  { intros Ho. unfold n. rewrite Ho. apply pre_save_next_order. }
  destruct (image_id self) as [i|] eqn:Hid.
  - destruct (save_table_stored i (ProductImage_row self n) (product_images db))
      as (Hrow & Hother & _).
    exists i, n. simpl. split_and!; done.
  - destruct (save_table_new (ProductImage_row self n) (product_images db))
      as (Hk & Hrow & Hother & _).
    exists (fresh (dom (product_images db))), n. simpl. split_and!; done.
Qed.

Lemma image_save_writes_one_row_witness :
  ∃ k n,
    product_images sample_db !! k = None ∧
    product_images (ProductImage_save (new_image 1 None) sample_db).2 !! k
      = Some (ProductImage_row (new_image 1 None) n) ∧
    next_order pi_product_line pi_order 1 (product_images sample_db) n.
Proof.
  destruct (image_save_writes_one_row sample_db
              (ProductImage_save (new_image 1 None) sample_db).2
              (new_image 1 None))
    as (k & n & Hk & Hrow & _ & Hn & _).
  - vm_compute. reflexivity.
  - exists k, n. split_and!; [exact Hk|exact Hrow|by apply Hn].
Defined.

(** ** More on the join validators *)

Lemma pair_stored_own_row (self : ProductLineAttributeValue) (db : DB) :
  pair_stored self db →
  ¬ pair_taken plav_attribute_value plav_product_line (join_id self)
      (join_attribute_value self) (join_product_line self)
      (product_line_attribute_values db) →
  ∃ k, join_id self = Some k ∧
       product_line_attribute_values db !! k
         = Some (ProductLineAttributeValue_row self).
Proof.
  intros (j & r & Hj & _ & Hv & Hl) Hfree. exists j.
  destruct (decide (join_id self = Some j)) as [Hid|Hid].
  - split; [done|]. rewrite Hj. f_equal. destruct r. simpl in *. by subst.
  - destruct Hfree. by exists j, r.
Qed.

(** X8: for a join whose product line exists, the save of a
    ProductLine-to-AttributeValue join succeeds in exactly two situations:
    the pair is stored and only under the instance's own id, or the pair is
    not stored, the value exists, and the line has no value of that value's
    attribute yet. *)
Theorem join_save_succeeds_iff (db : DB) (self : ProductLineAttributeValue) :
  is_Some (product_lines db !! join_product_line self) →
  (ProductLineAttributeValue_save self db).1 = inr tt ↔
  (pair_stored self db ∧
   ¬ pair_taken plav_attribute_value plav_product_line (join_id self)
       (join_attribute_value self) (join_product_line self)
       (product_line_attribute_values db)) ∨
  (¬ pair_stored self db ∧
   ∃ v, attribute_values db !! join_attribute_value self = Some v ∧
        ¬ line_has_attribute (join_product_line self) (av_attribute v) db).
Proof.
  intros _. rewrite ProductLineAttributeValue_save_eq.
  destruct (exists_ _) eqn:Hex.
  - apply join_exists_spec in Hex.
    destruct (unique_together_conflict _ _ _ _ _ _) eqn:Hc; simpl.
    + apply unique_together_conflict_spec in Hc. split; [done|].
      intros [[_ Hfree]|[Hns _]]; done.
    + split; [|done]. intros _. left. split; [done|].
      intros Ht%unique_together_conflict_spec. congruence.
  - assert (¬ pair_stored self db) as Hns.
    { intros Hst%join_exists_spec. congruence. }
    destruct (attribute_values db !! join_attribute_value self) as [v|]; simpl.
    + destruct (decide (av_attribute v
                          ∈ attribute_pks_of_line (join_product_line self) db))
        as [Hin|Hin].
      * rewrite bool_decide_eq_true_2 by done. simpl. split; [done|].
        intros [[Hst _]|(_ & v' & [= <-] & Hno)]; [done|].
        destruct Hno. by apply elem_of_attribute_pks_of_line.
      * rewrite bool_decide_eq_false_2 by done. simpl. split; [|done].
        intros _. right. split; [done|]. exists v. split; [done|].
        by rewrite <- elem_of_attribute_pks_of_line.
    + split; [done|]. intros [[Hst _]|(_ & v & Hv & _)]; done.
Qed.

(** Large, of the attribute Size, attached to line 1, which is Red. *)
Lemma join_save_succeeds_iff_witness :
  (ProductLineAttributeValue_save (new_join 12 1) sample_db).1 = inr tt.
Proof.
  apply (join_save_succeeds_iff sample_db (new_join 12 1)); [by eexists|].
  right. split.
  - intros (j & r & Hj & _ & Hv & _). simpl in Hj.
    apply lookup_insert_Some in Hj as [[_ <-]|[_ Hj]]; [done|].
    by rewrite lookup_empty in Hj.
  - exists {| av_attribute_value := "Large"; av_attribute := 2 |}.
    split; [reflexivity|].
    intros (j & r & v & Hj & _ & Hv & Ha). simpl in Hj.
    apply lookup_insert_Some in Hj as [[_ <-]|[_ Hj]];
      [|by rewrite lookup_empty in Hj].
    simpl in Hv. vm_compute in Hv. injection Hv as <-. done.
Defined.

(** X9: the value of a stored join cannot be replaced by another value of
    the same attribute: the line's attributes are collected with the row
    being saved still in place, so its own former value counts and the save
    fails with "Duplicate attribute exists". *)
Theorem changing_value_within_attribute_is_rejected (db : DB)
    (self : ProductLineAttributeValue) (k : Z) (r : ProductLineAttributeValueRow)
    (v_old v_new : AttributeValueRow) :
  join_id self = Some k →
  product_line_attribute_values db !! k = Some r →
  plav_product_line r = join_product_line self →
  attribute_values db !! plav_attribute_value r = Some v_old →
  attribute_values db !! join_attribute_value self = Some v_new →
  av_attribute v_old = av_attribute v_new →
  ¬ pair_stored self db →
  ProductLineAttributeValue_save self db
  = (inl (ValidationError "Duplicate attribute exists"), db).
Proof.
  intros Hid Hk Hl Hold Hnew Ha Hns.
  rewrite ProductLineAttributeValue_save_eq.
  destruct (exists_ _) eqn:Hex.
  { by apply join_exists_spec in Hex. }
  rewrite Hnew, bool_decide_eq_true_2; [done|].
  apply elem_of_attribute_pks_of_line. by exists k, r, v_old.
Qed.

(** The stored join of line 1 with Red, edited to Blue. *)
Lemma changing_value_within_attribute_is_rejected_witness :
  ProductLineAttributeValue_save
    {| join_id := Some 1; join_attribute_value := 11; join_product_line := 1 |}
    sample_db
  = (inl (ValidationError "Duplicate attribute exists"), sample_db).
Proof.
  apply (changing_value_within_attribute_is_rejected sample_db
           {| join_id := Some 1; join_attribute_value := 11; join_product_line := 1 |}
           1 {| plav_attribute_value := 10; plav_product_line := 1 |}
           {| av_attribute_value := "Red"; av_attribute := 1 |}
           {| av_attribute_value := "Blue"; av_attribute := 1 |});
    try reflexivity.
  intros (j & r & Hj & _ & Hv & _). simpl in Hj.
  apply lookup_insert_Some in Hj as [[_ <-]|[_ Hj]]; [done|].
  by rewrite lookup_empty in Hj.
Defined.

(** ** Invariants of the join tables *)

Lemma save_all_invariant (P : DB → Prop) :
  (∀ w db db', P db → write w db = (inr tt, db') → P db') →
  ∀ ws db db', P db → save_all write ws db = (inr tt, db') → P db'.
Proof.
  intros Hstep ws. induction ws as [|w rest IH]; intros db db' HP; simpl.
  - by intros [= <-].
  - unfold mbind, M_bind.
    destruct (write w db) as [[e|[]] db1] eqn:Hw; [done|].
    intros Hrest. apply (IH db1); [|done]. by apply (Hstep w db).
Qed.

Lemma ProductLine_save_tables (self : ProductLine) (db : DB) :
  attribute_values (ProductLine_save self db).2 = attribute_values db ∧
  product_attribute_values (ProductLine_save self db).2
    = product_attribute_values db ∧
  product_line_attribute_values (ProductLine_save self db).2
    = product_line_attribute_values db.
Proof. rewrite ProductLine_save_eq. by destruct ((ProductLine_full_clean self db).1). Qed.

Lemma ProductImage_save_tables (self : ProductImage) (db : DB) :
  attribute_values (ProductImage_save self db).2 = attribute_values db ∧
  product_attribute_values (ProductImage_save self db).2
    = product_attribute_values db ∧
  product_line_attribute_values (ProductImage_save self db).2
    = product_line_attribute_values db.
Proof. rewrite ProductImage_save_eq. by destruct ((ProductImage_full_clean self db).1). Qed.

Lemma save_table_pair_unique {Row} (f g : Row → Z) id (r : Row) (t : gmap Z Row) :
  pair_unique f g t →
  ¬ pair_taken f g id (f r) (g r) t →
  pair_unique f g (save_table id r t).
Proof.
  intros Hu Hfree.
  assert (∀ k, (id = Some k ∨ (id = None ∧ t !! k = None)) →
               pair_unique f g (<[k := r]> t)) as Hins.
  { intros k Hk i j r1 r2 Hi Hj Hij [Hf Hg].
    destruct (decide (i = k)) as [->|Hik], (decide (j = k)) as [->|Hjk];
      [done|..]; simplify_map_eq.
    - apply Hfree. exists j, r2. split_and!; [done| |done|done].
      destruct Hk as [->|[-> Hk]]; congruence.
    - apply Hfree. exists i, r1. split_and!; [done| |done|done].
      destruct Hk as [->|[-> Hk]]; congruence.
    - by apply (Hu i j r1 r2). }
  destruct id as [k|]; simpl; apply Hins; [by left|right].
  split; [done|apply lookup_fresh_id].
Qed.

Lemma join_save_ok_pair_free (self : ProductLineAttributeValue) (db : DB) :
  (ProductLineAttributeValue_save self db).1 = inr tt →
  ¬ pair_taken plav_attribute_value plav_product_line (join_id self)
      (join_attribute_value self) (join_product_line self)
      (product_line_attribute_values db).
Proof.
  rewrite ProductLineAttributeValue_save_eq.
  destruct (exists_ _) eqn:Hex.
  - destruct (unique_together_conflict _ _ _ _ _ _) eqn:Hc; [done|].
    intros _ Ht%unique_together_conflict_spec. congruence.
  - intros _ Ht%pair_taken_None%join_exists_spec. congruence.
Qed.

Lemma write_pair_unique (w : Write) (db db' : DB) :
  joins_pair_unique db → write w db = (inr tt, db') → joins_pair_unique db'.
Proof.
  intros [Hl Hp]. destruct w as [self|self|self|self]; simpl; intros Hsave.
  - destruct (ProductLine_save_tables self db) as (_ & Ep & El).
    rewrite Hsave in Ep, El. simpl in Ep, El. unfold joins_pair_unique.
    by rewrite Ep, El.
  - destruct (ProductImage_save_tables self db) as (_ & Ep & El).
    rewrite Hsave in Ep, El. simpl in Ep, El. unfold joins_pair_unique.
    by rewrite Ep, El.
  - destruct (ProductLineAttributeValue_save_tables self db) as (_ & _ & _ & Ep).
    rewrite Hsave in Ep. simpl in Ep. split; [|by rewrite Ep].
    assert ((ProductLineAttributeValue_save self db).1 = inr tt) as Hok
      by by rewrite Hsave.
    assert (¬ pair_taken plav_attribute_value plav_product_line (join_id self)
              (join_attribute_value self) (join_product_line self)
              (product_line_attribute_values db)) as Hfree.
    { apply join_save_ok_pair_free in Hok. done. }
    revert Hsave. rewrite ProductLineAttributeValue_save_eq.
    repeat case_match; try done; intros [= <-]; simpl;
      by apply save_table_pair_unique.
  - revert Hsave. rewrite ProductAttributeValue_save_eq.
    destruct (unique_together_conflict _ _ _ _ _ _) eqn:Hc; [done|].
    destruct (bool_decide _); [done|].
    intros [= <-]. split; [done|]. simpl.
    apply save_table_pair_unique; [done|]. simpl.
    intros Ht%unique_together_conflict_spec. congruence.
Qed.

(** X10: every run of successful saves keeps both join tables free of
    repeated pairs: no two ProductLine joins share (attribute_value,
    product_line) and no two Product joins share (attribute_value, product). *)
Theorem saves_preserve_pair_unique (ws : list Write) (db db' : DB) :
  joins_pair_unique db →
  save_all write ws db = (inr tt, db') →
  joins_pair_unique db'.
Proof. apply (save_all_invariant joins_pair_unique), write_pair_unique. Qed.

Lemma sample_db_pair_unique : joins_pair_unique sample_db.
Proof.
  split; intros i j r1 r2 Hi Hj Hij _; simpl in Hi, Hj;
    apply lookup_insert_Some in Hi as [[<- _]|[_ Hi]];
    try (by rewrite lookup_empty in Hi);
    apply lookup_insert_Some in Hj as [[<- _]|[_ Hj]];
    try (by rewrite lookup_empty in Hj); done.
Qed.

Lemma saves_preserve_pair_unique_witness :
  joins_pair_unique
    (save_all write
       [SaveProductLineAttributeValue (new_join 12 1);
        SaveProductAttributeValue (new_product_join 11 1);
        SaveProductLine (new_line 1 None)] sample_db).2.
Proof.
  apply (saves_preserve_pair_unique
           [SaveProductLineAttributeValue (new_join 12 1);
            SaveProductAttributeValue (new_product_join 11 1);
            SaveProductLine (new_line 1 None)] sample_db).
  - exact sample_db_pair_unique.
  - vm_compute. reflexivity.
Defined.

Lemma join_save_attribute_axis (self : ProductLineAttributeValue) (db db' : DB) :
  attribute_axis_unique db →
  ProductLineAttributeValue_save self db = (inr tt, db') →
  attribute_axis_unique db'.
Proof.
  intros Hinv Hsave.
  assert ((ProductLineAttributeValue_save self db).1 = inr tt) as Hok
    by by rewrite Hsave.
  pose proof (join_save_ok_pair_free self db Hok) as Hfree.
  revert Hsave. rewrite ProductLineAttributeValue_save_eq.
  destruct (exists_ _) eqn:Hex.
  - apply join_exists_spec in Hex.
    destruct (pair_stored_own_row self db Hex Hfree) as (k & Hid & Hk).
    destruct (unique_together_conflict _ _ _ _ _ _); [done|].
    intros [= <-]. rewrite Hid. simpl. rewrite insert_id by done.
    by rewrite set_product_line_attribute_values_id.
  - destruct (attribute_values db !! join_attribute_value self) as [v|] eqn:Hv;
      [|done].
    destruct (decide (av_attribute v
                        ∈ attribute_pks_of_line (join_product_line self) db))
      as [Hin|Hin].
    { by rewrite bool_decide_eq_true_2. }
    rewrite bool_decide_eq_false_2 by done. intros [= <-].
    rewrite elem_of_attribute_pks_of_line in Hin.
    assert (∀ k, attribute_axis_unique
                   (set_product_line_attribute_values
                      (<[k := ProductLineAttributeValue_row self]>
                         (product_line_attribute_values db)) db)) as Hins.
    { intros k i j r1 r2 v1 v2 Hi Hj Hij Hl H1 H2. simpl in *.
      destruct (decide (i = k)) as [->|Hik], (decide (j = k)) as [->|Hjk];
        [done|..]; simplify_map_eq.
      - intros Heq. apply Hin. exists j, r2, v2. split_and!; congruence.
      - intros Heq. apply Hin. exists i, r1, v1. split_and!; congruence.
      - by apply (Hinv i j r1 r2 v1 v2). }
    destruct (join_id self); simpl; apply Hins.
Qed.

Lemma write_attribute_axis (w : Write) (db db' : DB) :
  attribute_axis_unique db → write w db = (inr tt, db') →
  attribute_axis_unique db'.
Proof.
  intros Hinv. destruct w as [self|self|self|self]; simpl; intros Hsave.
  - destruct (ProductLine_save_tables self db) as (Ea & _ & El).
    rewrite Hsave in Ea, El. simpl in Ea, El. unfold attribute_axis_unique.
    by rewrite Ea, El.
  - destruct (ProductImage_save_tables self db) as (Ea & _ & El).
    rewrite Hsave in Ea, El. simpl in Ea, El. unfold attribute_axis_unique.
    by rewrite Ea, El.
  - by apply (join_save_attribute_axis self db).
  - destruct (ProductAttributeValue_save_tables self db) as (Ea & _ & _ & El).
    rewrite Hsave in Ea, El. simpl in Ea, El. unfold attribute_axis_unique.
    by rewrite Ea, El.
Qed.

(** X11: every run of successful saves keeps each ProductLine at no more
    than one value per attribute: if no line has two joins whose values
    belong to one attribute before the run, none has afterwards. *)
Theorem saves_preserve_attribute_axis (ws : list Write) (db db' : DB) :
  attribute_axis_unique db →
  save_all write ws db = (inr tt, db') →
  attribute_axis_unique db'.
Proof. apply (save_all_invariant attribute_axis_unique), write_attribute_axis. Qed.

Lemma sample_db_attribute_axis : attribute_axis_unique sample_db.
Proof.
  intros i j r1 r2 v1 v2 Hi Hj Hij _ _ _; simpl in Hi, Hj.
  apply lookup_insert_Some in Hi as [[<- _]|[_ Hi]];
    [|by rewrite lookup_empty in Hi].
  apply lookup_insert_Some in Hj as [[<- _]|[_ Hj]]; [done|].
  by rewrite lookup_empty in Hj.
Qed.

Lemma saves_preserve_attribute_axis_witness :
  attribute_axis_unique
    (save_all write
       [SaveProductLineAttributeValue (new_join 12 1);
        SaveProductLineAttributeValue (new_join 11 2);
        SaveProductLineAttributeValue loaded_join_1] sample_db).2.
Proof.
  apply (saves_preserve_attribute_axis
           [SaveProductLineAttributeValue (new_join 12 1);
            SaveProductLineAttributeValue (new_join 11 2);
            SaveProductLineAttributeValue loaded_join_1] sample_db).
  - exact sample_db_attribute_axis.
  - vm_compute. reflexivity.
Defined.




(** ** The shape of the serialized documents *)

(** X13: serializing a ProductLine never raises, and the document has
    exactly the keys price, sku, stock_qty, order, product_image and
    specification, the scalar ones carrying the line's columns and
    product_image one document per image, in order. *)
Theorem ProductLineSerializer_document_shape (line : ProductLineView) :
  ∃ data,
    ProductLineSerializer_to_representation line = inr data ∧
    dom data = {[KStr "price"; KStr "sku"; KStr "stock_qty"; KStr "order";
                 KStr "product_image"; KStr "specification"]} ∧
    data !! KStr "price" = Some (PDecimal (lv_price line)) ∧
    data !! KStr "sku" = Some (PStr (lv_sku line)) ∧
    data !! KStr "stock_qty" = Some (PInt (lv_stock_qty line)) ∧
    data !! KStr "order" = Some (PInt (Z.of_N (lv_order line))) ∧
    data !! KStr "product_image"
      = Some (PList (PDict ∘ ProductImageSerializer_to_representation
                       <$> lv_product_image line)).
Proof.
  exists (ProductLine_document line).
  split; [apply ProductLineSerializer_to_representation_eq|].
  unfold ProductLine_document, ProductLineSerializer_super. split_and!.
  - rewrite dom_insert_L, dom_delete_L, !dom_insert_L, dom_empty_L. set_solver.
  - reflexivity.
  - reflexivity.
  - reflexivity.
  - reflexivity.
  - reflexivity.
Qed.

(** X14: serializing a Product never raises, and the document has exactly
    the keys name, slug, pid, description, product_line and attribute;
    product_line holds one line document per product line, in order. *)
Theorem ProductSerializer_document_shape (product : Product) :
  ∃ data lines,
    ProductSerializer_to_representation product = inr data ∧
    dom data = {[KStr "name"; KStr "slug"; KStr "pid"; KStr "description";
                 KStr "product_line"; KStr "attribute"]} ∧
    data !! KStr "name" = Some (PStr (product_name product)) ∧
    data !! KStr "slug" = Some (PStr (product_slug product)) ∧
    data !! KStr "pid" = Some (PStr (product_pid product)) ∧
    data !! KStr "description" = Some (PStr (product_description product)) ∧
    data !! KStr "product_line" = Some (PList (PDict <$> lines)) ∧
    Forall2 (λ line doc, ProductLineSerializer_to_representation line = inr doc)
            (product_product_line product) lines.
Proof.
  exists (Product_document product),
    (ProductLine_document <$> product_product_line product).
  split; [apply ProductSerializer_to_representation_eq|].
  unfold Product_document. split_and!.
  - rewrite !dom_insert_L, dom_empty_L. set_solver.
  - reflexivity.
  - reflexivity.
  - reflexivity.
  - reflexivity.
  - rewrite <- list_fmap_compose. reflexivity.
  - apply Forall2_fmap_r, Forall_Forall2_diag, Forall_forall.
    intros line _. apply ProductLineSerializer_to_representation_eq.
Qed.

(** X15: the product-in-category document never keeps product_line: it
    has exactly the keys name, slug, pid and created_at when the product has
    no line, and these four with price and image when it has one. *)
Theorem ProductCategorySerializer_document_shape (product : Product) :
  ∃ data,
    ProductCategorySerializer_to_representation product = inr data ∧
    data !! KStr "product_line" = None ∧
    dom data =
      {[KStr "name"; KStr "slug"; KStr "pid"; KStr "created_at"]} ∪
      (match product_product_line product with
       | [] => ∅
       | _ :: _ => {[KStr "price"; KStr "image"]}
       end).
Proof.
  exists (ProductCategory_document product).
  split; [apply ProductCategorySerializer_to_representation_eq|].
  unfold ProductCategory_document, ProductCategorySerializer_super.
  destruct (product_product_line product) as [|first rest]; simpl; split.
  - reflexivity.
  - rewrite dom_delete_L, !dom_insert_L, dom_empty_L. set_solver.
  - reflexivity.
  - rewrite !dom_insert_L, dom_delete_L, !dom_insert_L, dom_empty_L. set_solver.
Qed.

(** ** What the flat maps keep *)

Lemma flat_map_of_snoc (key_of : AttributeValue → pykey) (acc : dict)
    (values : list AttributeValue) (av : AttributeValue) :
  flat_map_of key_of acc (values ++ [av])
  = <[key_of av := PStr (value_attribute_value av)]>
      (flat_map_of key_of acc values).
Proof. unfold flat_map_of. by rewrite foldl_app. Qed.

Lemma dom_flat_map_of (key_of : AttributeValue → pykey) (acc : dict)
    (values : list AttributeValue) :
  dom (flat_map_of key_of acc values) = dom acc ∪ list_to_set (key_of <$> values).
Proof.
  induction values as [|av values IH] using rev_ind.
  - simpl. by rewrite (right_id_L ∅ (∪)).
  - rewrite flat_map_of_snoc, dom_insert_L, IH, fmap_app, list_to_set_app_L.
    simpl. apply set_eq. intros k.
    rewrite !elem_of_union, elem_of_singleton, elem_of_empty. tauto.
Qed.

Lemma flat_map_of_distinct_keys (key_of : AttributeValue → pykey)
    (values : list AttributeValue) :
  NoDup (key_of <$> values) →
  size (flat_map_of key_of ∅ values) = length values ∧
  ∀ av, av ∈ values →
        flat_map_of key_of ∅ values !! key_of av
        = Some (PStr (value_attribute_value av)).
Proof.
  induction values as [|x values IH] using rev_ind; intros Hnd.
  - split; [done|]. intros av Hav. by apply elem_of_nil in Hav.
  - rewrite fmap_app in Hnd. apply NoDup_app in Hnd as (Hnd & Hx & _).
    destruct (IH Hnd) as [Hsize Hlook].
    assert (key_of x ∉ key_of <$> values) as Hfresh.
    { intros Hin. apply (Hx (key_of x) Hin). simpl. left. }
    rewrite flat_map_of_snoc. split.
    + rewrite map_size_insert_None, Hsize, length_app; [simpl; lia|].
      apply not_elem_of_dom. rewrite dom_flat_map_of, dom_empty_L.
      intros [Hin|Hin]%elem_of_union; [by apply elem_of_empty in Hin|].
      by apply elem_of_list_to_set in Hin.
    + intros av [Hav|Hav%list_elem_of_singleton]%elem_of_app.
      * rewrite lookup_insert_ne; [by apply Hlook|].
        intros Heq. apply Hfresh. rewrite Heq. by apply list_elem_of_fmap_2.
      * subst av. apply lookup_insert_eq.
Qed.

(** X16: when the values of a ProductLine belong to pairwise different
    attributes (what the join validator maintains), the specification loses
    none of them: it has as many entries as the line has values, and under
    each value's attribute id it holds that value's text. *)
Theorem specification_keeps_every_value (line : ProductLineView) :
  NoDup (attribute_id ∘ value_attribute <$> lv_attribute_value line) →
  ∃ data spec,
    ProductLineSerializer_to_representation line = inr data ∧
    data !! KStr "specification" = Some (PDict spec) ∧
    size spec = length (lv_attribute_value line) ∧
    ∀ av, av ∈ lv_attribute_value line →
          spec !! KInt (attribute_id (value_attribute av))
          = Some (PStr (value_attribute_value av)).
Proof.
  intros Hnd.
  assert (NoDup (by_attribute_id <$> lv_attribute_value line)) as Hkeys.
  { assert (by_attribute_id <$> lv_attribute_value line
            = KInt <$> (attribute_id ∘ value_attribute <$> lv_attribute_value line))
      as -> by by rewrite <- list_fmap_compose.
    apply NoDup_fmap_2; [|done]. by intros x y [= ->]. }
  destruct (flat_map_of_distinct_keys by_attribute_id _ Hkeys) as [Hsize Hlook].
  exists (ProductLine_document line),
    (flat_map_of by_attribute_id ∅ (lv_attribute_value line)).
  split_and!.
  - apply ProductLineSerializer_to_representation_eq.
  - apply lookup_insert_eq.
  - exact Hsize.
  - intros av Hav. by apply Hlook.
Qed.

Lemma specification_keeps_every_value_witness :
  ∃ data spec,
    ProductLineSerializer_to_representation first_line = inr data ∧
    data !! KStr "specification" = Some (PDict spec) ∧
    size spec = 2%nat ∧
    spec !! KInt 2 = Some (PStr "Large").
Proof.
  destruct (specification_keeps_every_value first_line)
    as (data & spec & Hdata & Hspec & Hsize & Hlook).
  - simpl. apply NoDup_cons. split; [|apply NoDup_singleton].
    intros Hin%list_elem_of_singleton. discriminate.
  - exists data, spec. split_and!; [exact Hdata|exact Hspec|exact Hsize|].
    apply (Hlook large). simpl. right. left.
Defined.

(** X17: the product-level map is keyed by attribute name, which is not a
    key of the Attribute table: two values of different attributes that
    share a name collapse into one entry holding the later text, whereas
    the line-level specification, keyed by attribute id, keeps the earlier
    value under its own id. *)
Theorem same_name_attributes_collapse (product : Product) (line : ProductLineView)
    (l1 l2 l3 : list AttributeValue) (a b : AttributeValue) :
  product_attribute_value product = l1 ++ a :: l2 ++ b :: l3 →
  lv_attribute_value line = l1 ++ a :: l2 ++ b :: l3 →
  attribute_name (value_attribute a) = attribute_name (value_attribute b) →
  (∀ x, x ∈ l3 → attribute_name (value_attribute x)
                  ≠ attribute_name (value_attribute b)) →
  (∀ x, x ∈ l2 ++ b :: l3 → attribute_id (value_attribute x)
                             ≠ attribute_id (value_attribute a)) →
  ∃ pdata attrs ldata spec,
    ProductSerializer_to_representation product = inr pdata ∧
    pdata !! KStr "attribute" = Some (PDict attrs) ∧
    attrs !! KStr (attribute_name (value_attribute a))
      = Some (PStr (value_attribute_value b)) ∧
    ProductLineSerializer_to_representation line = inr ldata ∧
    ldata !! KStr "specification" = Some (PDict spec) ∧
    spec !! KInt (attribute_id (value_attribute a))
      = Some (PStr (value_attribute_value a)).
Proof.
  intros Hp Hl Hname Hlater Hid.
  exists (Product_document product),
    (flat_map_of by_attribute_name ∅ (product_attribute_value product)),
    (ProductLine_document line),
    (flat_map_of by_attribute_id ∅ (lv_attribute_value line)).
  split_and!.
  - apply ProductSerializer_to_representation_eq.
  - apply lookup_insert_eq.
  - rewrite flat_map_of_lookup, Hp, Hname.
    replace (l1 ++ a :: l2 ++ b :: l3) with ((l1 ++ a :: l2) ++ b :: l3)
      by by rewrite <- app_assoc.
    change (KStr (attribute_name (value_attribute b))) with (by_attribute_name b).
    rewrite last_value_for_last; [done|].
    intros x Hx. unfold by_attribute_name. specialize (Hlater x Hx). congruence.
  - apply ProductLineSerializer_to_representation_eq.
  - apply lookup_insert_eq.
  - rewrite flat_map_of_lookup, Hl.
    change (KInt (attribute_id (value_attribute a))) with (by_attribute_id a).
    rewrite last_value_for_last; [done|].
    intros x Hx. unfold by_attribute_id. specialize (Hid x Hx). congruence.
Qed.

(** Two attributes, ids 1 and 3, both named Color; Red of the first, Blue of
    the second. *)
Lemma same_name_attributes_collapse_witness :
  ∃ attrs spec : dict,
    attrs !! KStr "Color" = Some (PStr "Blue") ∧
    spec !! KInt 1 = Some (PStr "Red").
Proof.
  destruct (same_name_attributes_collapse
              {| product_name := "Runner"; product_slug := "runner";
                 product_pid := "p-1"; product_description := "";
                 product_is_active := true; product_category := shoes;
                 product_created_at := 0; product_product_line := [];
                 product_attribute_value :=
                   [red;
                    {| value_id := 13;
                       value_attribute :=
                         {| attribute_id := 3; attribute_name := "Color" |};
                       value_attribute_value := "Blue" |}] |}
              {| lv_price := 1999; lv_sku := "sku-1"; lv_stock_qty := 5;
                 lv_order := 1; lv_product_image := [];
                 lv_attribute_value :=
                   [red;
                    {| value_id := 13;
                       value_attribute :=
                         {| attribute_id := 3; attribute_name := "Color" |};
                       value_attribute_value := "Blue" |}] |}
              [] [] [] red
              {| value_id := 13;
                 value_attribute :=
                   {| attribute_id := 3; attribute_name := "Color" |};
                 value_attribute_value := "Blue" |}
              eq_refl eq_refl eq_refl)
    as (pdata & attrs & ldata & spec & _ & _ & Hattrs & _ & _ & Hspec).
  - intros x Hx. by apply elem_of_nil in Hx.
  - intros x Hx. simpl in Hx. apply list_elem_of_singleton in Hx. by subst x.
  - exists attrs, spec. split; [exact Hattrs|exact Hspec].
Defined.

(** ** The endpoints *)

(** X18: retrieval by slug never raises and returns one document per
    active product carrying that slug, in table order; the slug is not a
    key of the table, so there may be several.  Every returned document
    carries the requested slug, and an inactive product contributes none. *)
Theorem retrieve_returns_active_matches (table : list Product) (slug : string) :
  ∃ docs,
    ProductViewSet_retrieve table slug = inr docs ∧
    Forall2 (λ p doc, ProductSerializer_to_representation p = inr doc)
            (List.filter (λ p, product_is_active p
                               && bool_decide (product_slug p = slug)) table)
            docs ∧
    Forall (λ doc, doc !! KStr "slug" = Some (PStr slug)) docs ∧
    length docs
      = length (List.filter (λ p, product_is_active p
                                  && bool_decide (product_slug p = slug)) table).
Proof.
  set (matches := List.filter (λ p, product_is_active p
                                    && bool_decide (product_slug p = slug)) table).
  exists (Product_document <$> matches). split_and!.
  - unfold ProductViewSet_retrieve. rewrite qs_iter_filter.
    by rewrite (mapM_inr _ Product_document)
      by apply ProductSerializer_to_representation_eq.
  - apply Forall2_fmap_r, Forall_Forall2_diag, Forall_forall.
    intros p _. apply ProductSerializer_to_representation_eq.
  - apply Forall_fmap, Forall_forall. intros p Hp.
    apply list_elem_of_In, filter_In in Hp as [_ Hp].
    apply andb_true_iff in Hp as [_ Hs%bool_decide_eq_true]. simpl.
    unfold Product_document. rewrite <- Hs. reflexivity.
  - by rewrite length_fmap.
Qed.

(** Two active products under one slug are both returned. *)
Example retrieve_shared_slug :
  ProductViewSet_retrieve
    [sample_product "runner" true []; sample_product "runner" false [];
     sample_product "runner" true [first_line]] "runner"
  = inr [Product_document (sample_product "runner" true []);
         Product_document (sample_product "runner" true [first_line])].
Proof. vm_compute. reflexivity. Qed.

(** X19: the first category listing of a process, when the class-level
    queryset has not been iterated yet, returns one document per active
    category, in table order, each with exactly the keys category and slug
    holding the category's name and slug; and it leaves the rows it fetched
    in the queryset's result cache. *)
Theorem CategoryViewSet_list_fresh_queryset (table : list Category) :
  ∃ body,
    CategoryViewSet_list CategoryViewSet_queryset table
    = (body,
       {| qs_query := qs_query CategoryViewSet_queryset;
          qs_result_cache := Some (List.filter category_is_active table) |}) ∧
    Forall2 (λ c doc,
               dom doc = {[KStr "category"; KStr "slug"]} ∧
               doc !! KStr "category" = Some (PStr (category_name c)) ∧
               doc !! KStr "slug" = Some (PStr (category_slug c)))
            (List.filter category_is_active table) body.
Proof.
  exists (CategorySerializer_to_representation
            <$> List.filter category_is_active table).
  split.
  - reflexivity.
  - apply Forall2_fmap_r, Forall_Forall2_diag, Forall_forall.
    intros c _. apply CategorySerializer_fields.
Qed.

(** X20: within one process every category listing after the first
    returns the body of the first, whatever the table holds by then: rows
    activated, deactivated, added or removed in between do not show. *)
Theorem CategoryViewSet_later_requests_repeat_first (table : list Category)
    (later : list (list Category)) :
  CategoryViewSet_serve CategoryViewSet_queryset (table :: later)
  = replicate (S (length later))
      (CategorySerializer_to_representation
         <$> List.filter category_is_active table).
Proof.
  simpl. f_equal.
  by rewrite (CategoryViewSet_serve_cached _ (List.filter category_is_active table)).
Qed.
